(** * Rubicon example notebooks and documentation workflow

  A shallow embedding of the executable content of
  [notebooks/quick-look.ipynb], [notebooks/git-integration.ipynb] and of the
  "Publish docs" GitHub workflow, together with the properties the
  specification states about them. *)

From Stdlib Require Import ZArith PrimFloat Uint63 Ascii.
From stdpp Require Import gmap strings list fin_maps.

Local Open Scope Z_scope.

(** ** Python values and builtins used by the notebooks *)

Module Py.

(** The dynamically typed values the notebooks pass around. *)
Inductive value :=
| VNone
| VBool (b : bool)
| VInt (n : Z)
| VStr (s : string).

(** Truth value testing, as used by [if is_standardized:]. *)
Definition truthy (v : value) : bool :=
  match v with
  | VNone => false
  | VBool b => b
  | VInt n => negb (n =? 0)
  | VStr s => negb (String.eqb s "")
  end.

#[global] Instance value_eq_dec : EqDecision value.
Proof. solve_decision. Defined.

Definition is_bool (v : value) : bool :=
  match v with VBool _ => true | _ => false end.

(** [len(range(start, stop, step))]; CPython's [compute_range_length]. *)
Definition range_length (start stop step : Z) : nat :=
  if 0 <? step then
    if start <? stop then Z.to_nat ((stop - start - 1) / step + 1) else 0%nat
  else
    if stop <? start then Z.to_nat ((start - stop - 1) / (- step) + 1) else 0%nat.

(** [range(start, stop, step)] as the list of values it iterates over.
    A zero step raises [ValueError], which is [None] here. *)
Definition range (start stop step : Z) : option (list Z) :=
  if step =? 0 then None
  else Some (map (fun i : nat => start + Z.of_nat i * step)
                 (seq 0 (range_length start stop step))).

End Py.

(** ** The experiment-tracking client *)

Module Rubicon.

(** Identifier of a logged experiment (a UUID in the library). *)
Abbreviation ExpId := nat.

(** What [rubicon.get_or_create_project(name)] hands back. *)
Record Project := { name : string }.

(** A [pandas.DataFrame] of counts with named axes. *)
Record Dataframe := {
  df_rownames : list string;
  df_colnames : list string;
  df_index : list string;
  df_columns : list string;
  df_cells : list (list Z) }.

(** Modelled from the spec: the entities of the external tracking library,
    whose implementation is not among the supplied files.  An experiment
    belongs to a project and holds parameters, features, metrics, dataframes
    and tags; each logging call adds one entry of its kind, and [add_tags]
    adds the given tags to the experiment's set of tags. *)
Record Experiment := {
  project_name : string;
  model_name : string;
  parameters : list (string * Py.value);
  features : list string;
  metrics : list (string * float);
  dataframes : list (Dataframe * list string);
  tags : gset string }.

(** The methods the notebooks call on an experiment object. *)
Inductive op :=
| LogParameter (key : string) (v : Py.value)
| LogFeature (key : string)
| LogMetric (key : string) (v : float)
| LogDataframe (df : Dataframe) (df_tags : list string)
| AddTags (new_tags : list string).

Definition new_experiment (project model : string) : Experiment :=
  {| project_name := project; model_name := model; parameters := [];
     features := []; metrics := []; dataframes := []; tags := ∅ |}.

Definition apply_op (c : op) (x : Experiment) : Experiment :=
  match c with
  | LogParameter k v =>
      {| project_name := project_name x; model_name := model_name x;
         parameters := parameters x ++ [(k, v)]; features := features x;
         metrics := metrics x; dataframes := dataframes x; tags := tags x |}
  | LogFeature k =>
      {| project_name := project_name x; model_name := model_name x;
         parameters := parameters x; features := features x ++ [k];
         metrics := metrics x; dataframes := dataframes x; tags := tags x |}
  | LogMetric k v =>
      {| project_name := project_name x; model_name := model_name x;
         parameters := parameters x; features := features x;
         metrics := metrics x ++ [(k, v)]; dataframes := dataframes x;
         tags := tags x |}
  | LogDataframe df ts =>
      {| project_name := project_name x; model_name := model_name x;
         parameters := parameters x; features := features x;
         metrics := metrics x; dataframes := dataframes x ++ [(df, ts)];
         tags := tags x |}
  | AddTags ts =>
      {| project_name := project_name x; model_name := model_name x;
         parameters := parameters x; features := features x;
         metrics := metrics x; dataframes := dataframes x;
         tags := tags x ∪ list_to_set ts |}
  end.

(** Code that talks to the client: a tree of client calls.
    [project.log_experiment] returns the new experiment, on which the
    continuation may depend; the [log_*] and [add_tags] methods return
    nothing the notebooks use.  The code ends by returning, or by an
    exception that nothing catches. *)
Inductive prog (A : Type) : Type :=
| Ret (a : A)
| Raise
| LogExperimentK (project model : string) (k : ExpId → prog A)
| CallK (e : ExpId) (c : op) (k : prog A).
Arguments Ret {A} a.
Arguments Raise {A}.
Arguments LogExperimentK {A} project model k.
Arguments CallK {A} e c k.

Fixpoint bind {A B} (p : prog A) (f : A → prog B) : prog B :=
  match p with
  | Ret a => f a
  | Raise => Raise
  | LogExperimentK pr m k => LogExperimentK pr m (λ e, bind (k e) f)
  | CallK e c k => CallK e c (bind k f)
  end.

#[global] Instance prog_ret : MRet prog := @Ret.
#[global] Instance prog_bind : MBind prog := λ A B f p, bind p f.

(** The result of a call outside the client: its value, or the exception
    it raised ([None]), which ends the code. *)
Definition returned {A} (result : option A) : prog A :=
  match result with
  | Some a => Ret a
  | None => Raise
  end.

(** What code that logs no experiment returns in the end, if it returns. *)
Fixpoint result {A} (p : prog A) : option A :=
  match p with
  | Ret a => Some a
  | Raise => None
  | LogExperimentK _ _ _ => None
  | CallK _ _ k => result k
  end.

(** Whether the code has come to its end, one way or the other. *)
Definition ended {A} (p : prog A) : bool :=
  match p with
  | Ret _ | Raise => true
  | _ => false
  end.

Definition log_experiment (project : Project) (model : string) : prog ExpId :=
  LogExperimentK (name project) model Ret.
Definition log_parameter (e : ExpId) (k : string) (v : Py.value) : prog unit :=
  CallK e (LogParameter k v) (Ret tt).
Definition log_feature (e : ExpId) (k : string) : prog unit :=
  CallK e (LogFeature k) (Ret tt).
Definition log_metric (e : ExpId) (k : string) (v : float) : prog unit :=
  CallK e (LogMetric k v) (Ret tt).
Definition log_dataframe (e : ExpId) (df : Dataframe) (ts : list string) : prog unit :=
  CallK e (LogDataframe df ts) (Ret tt).
Definition add_tags (e : ExpId) (ts : list string) : prog unit :=
  CallK e (AddTags ts) (Ret tt).

(** [for x in xs: body(x)] *)
Fixpoint for_each {A} (xs : list A) (body : A → prog unit) : prog unit :=
  match xs with
  | [] => Ret tt
  | x :: xs' => body x;; for_each xs' body
  end.

(** One entry of the record of client calls, in the order they happened. *)
Inductive event :=
| Created (e : ExpId) (project model : string)
| Called (e : ExpId) (c : op).

Definition subject (ev : event) : ExpId :=
  match ev with Created e _ _ => e | Called e _ => e end.

Section Backend.

(** The persisted experiments, by identifier, and the way the client picks
    the identifier of a new experiment. *)
Variable new_id : gmap nat Experiment → ExpId.

(** One client call against the store.  A write to an experiment the store
    does not hold changes nothing. *)
Definition step {A} (p : prog A) (s : gmap nat Experiment)
  : option (event * prog A * gmap nat Experiment) :=
  match p with
  | Ret _ | Raise => None
  | LogExperimentK pr m k =>
      let e := new_id s in
      Some (Created e pr m, k e, <[e := new_experiment pr m]> s)
  | CallK e c k => Some (Called e c, k, alter (apply_op c) e s)
  end.

(** A program run to its end, on its own: what it returned ([None] if it
    raised), the store it leaves and the client calls it made. *)
Fixpoint run {A} (p : prog A) (s : gmap nat Experiment)
  : option A * gmap nat Experiment * list event :=
  match p with
  | Ret a => (Some a, s, [])
  | Raise => (None, s, [])
  | LogExperimentK pr m k =>
      let e := new_id s in
      let '(a, s', t) := run (k e) (<[e := new_experiment pr m]> s) in
      (a, s', Created e pr m :: t)
  | CallK e c k =>
      let '(a, s', t) := run k (alter (apply_op c) e s) in
      (a, s', Called e c :: t)
  end.

(** Several programs sharing the store.  Each holds what is left of its
    code; whoever is picked next performs one client call.  Picking a
    program that has ended, or an index outside the pool, changes nothing. *)
Record world := {
  pool : list (prog unit);
  store : gmap nat Experiment;
  journal : list (nat * event) }.

Definition pool_step (w : world) (i : nat) : world :=
  match pool w !! i with
  | Some p =>
      match step p (store w) with
      | Some (ev, p', s') =>
          {| pool := <[i := p']> (pool w); store := s';
             journal := journal w ++ [(i, ev)] |}
      | None => w
      end
  | None => w
  end.

Definition pool_run (w : world) (schedule : list nat) : world :=
  foldl pool_step w schedule.

End Backend.

(** Modelled from the spec: the client's implementation is not among the
    supplied files.  It files a new experiment under an identifier that no
    experiment of the store has yet. *)
Definition fresh_id (s : gmap nat Experiment) : ExpId := fresh (dom s).

(** The tags a record of calls adds, in order. *)
Definition tags_added (calls : list event) : list string :=
  ev ← calls;
  match ev with
  | Called _ (AddTags ts) => ts
  | _ => []
  end.

Definition with_features (fs : list string) (x : Experiment) : Experiment :=
  {| project_name := project_name x; model_name := model_name x;
     parameters := parameters x; features := fs; metrics := metrics x;
     dataframes := dataframes x; tags := tags x |}.

(** The calls of program number [i] in a journal, in order. *)
Definition events_of (i : nat) (j : list (nat * event)) : list event :=
  snd <$> filter (λ x, x.1 = i) j.

(** A program that writes to experiment [e] and to nothing else, and logs no
    further experiment. *)
Fixpoint confined {A} (e : ExpId) (p : prog A) : Prop :=
  match p with
  | Ret _ | Raise => True
  | LogExperimentK _ _ _ => False
  | CallK e' _ k => e' = e ∧ confined e k
  end.

(** A program that, if it calls the client at all, first logs an experiment
    to [project] and from then on writes to that experiment only. *)
Definition keeps_to_own {A} (project : string) (p : prog A) : Prop :=
  match p with
  | Ret _ | Raise => True
  | LogExperimentK pr _ k => pr = project ∧ ∀ e, confined e (k e)
  | CallK _ _ _ => False
  end.

(** An experiment after the given calls on it, in order. *)
Definition replay (x : Experiment) (cs : list op) : Experiment :=
  foldl (λ x c, apply_op c x) x cs.

(** What holds of a pool of such programs at every moment, whatever the
    order in which they get their turns: the store keeps what it held at the
    start [s0] as it was; every journal entry is about an experiment that is
    in the store and was not in [s0]; no experiment is touched by two
    programs; and each program has either made no call yet, or has logged
    one experiment to [project] and since then called only on that one,
    which holds what these calls put there and nothing else. *)
Record apart (project : string) (s0 : gmap nat Experiment) (w : world) : Prop := {
  apart_keeps : ∀ e x, s0 !! e = Some x → store w !! e = Some x;
  apart_known : ∀ i ev, (i, ev) ∈ journal w →
    is_Some (store w !! subject ev) ∧ s0 !! subject ev = None;
  apart_owner : ∀ i j ev ev', (i, ev) ∈ journal w → (j, ev') ∈ journal w →
    subject ev = subject ev' → i = j;
  apart_pool : ∀ i, pool w !! i = None → events_of i (journal w) = [];
  apart_phase : ∀ i p, pool w !! i = Some p →
    (events_of i (journal w) = [] ∧ keeps_to_own project p) ∨
    (∃ e m cs, events_of i (journal w) = Created e project m :: (Called e <$> cs)
               ∧ store w !! e = Some (replay (new_experiment project m) cs)
               ∧ confined e p) }.

End Rubicon.

(** ** notebooks/quick-look.ipynb *)

Module QuickLook.
Import Rubicon.

(** Rows of feature values; class labels. *)
Abbreviation Matrix := (list (list float)).
Abbreviation Labels := (list Z).

(** What [load_wine()] returns. *)
Record Bunch := {
  data : Matrix;
  target : Labels;
  feature_names : list string;
  target_names : list string }.

(** Steps of a scikit-learn pipeline; [make_pipeline] of them is the list. *)
Inductive Stage :=
| StandardScaler
| PCA (n_components : Py.value)
| GaussianNB.

Definition make_pipeline (steps : list Stage) : list Stage := steps.

(** The notebook's globals that [run_experiment] reads, and the third-party
    functions it calls (scikit-learn, NumPy, pandas), which are not part of
    this repository and are left open here.  Each of them may raise instead
    of returning, as [fit] does for an [n_components] the data do not
    allow: that is [None]. *)
Record Env := {
  wine : Bunch;
  X_train : Matrix;
  X_test : Matrix;
  y_train : Labels;
  y_test : Labels;
  (** [classifier.fit(X, y)] followed by [classifier.predict(X')] *)
  fit_predict : list Stage → Matrix → Labels → Matrix → option Labels;
  (** [metrics.accuracy_score(y_true, y_pred)] *)
  accuracy_score : Labels → Labels → option float;
  (** [names[labels]] *)
  take : list string → Labels → option (list string);
  (** [pd.crosstab(rows, cols, rownames=..., colnames=...)] *)
  crosstab : list string → list string → list string → list string
             → option Dataframe }.

(** The binary64 value of the literal [.9]. *)
Definition point_nine : float := 0x1.ccccccccccccdp-1%float.

(** [a >= b] on floats. *)
Definition ge (a b : float) : bool := PrimFloat.leb b a.

Section RunExperiment.

Variable env : Env.

(** The accuracy the model of one configuration reaches on the test half,
    if fitting, predicting and scoring all return. *)
Definition accuracy_of (is_standardized n_components : Py.value) : option float :=
  let classifier :=
    if Py.truthy is_standardized
    then make_pipeline [StandardScaler; PCA n_components; GaussianNB]
    else make_pipeline [PCA n_components; GaussianNB] in
  pred_test ← fit_predict env classifier (X_train env) (y_train env) (X_test env);
  accuracy_score env (y_test env) pred_test.

Definition run_experiment (project : Project)
    (is_standardized n_components : Py.value) : prog unit :=
  experiment ← log_experiment project "GaussianNB";
  log_parameter experiment "is_standardized" is_standardized;;
  log_parameter experiment "n_components" n_components;;
  for_each (feature_names (wine env)) (λ name, log_feature experiment name);;
  let classifier :=
    if Py.truthy is_standardized
    then make_pipeline [StandardScaler; PCA n_components; GaussianNB]
    else make_pipeline [PCA n_components; GaussianNB] in
  pred_test ← returned
    (fit_predict env classifier (X_train env) (y_train env) (X_test env));
  accuracy ← returned (accuracy_score env (y_test env) pred_test);
  log_metric experiment "accuracy" accuracy;;
  actual ← returned (take env (target_names (wine env)) (y_test env));
  predicted ← returned (take env (target_names (wine env)) pred_test);
  confusion_matrix ← returned
    (crosstab env actual predicted ["actual"] ["predicted"]);
  log_dataframe experiment confusion_matrix ["confusion matrix"];;
  if ge accuracy point_nine
  then add_tags experiment ["success"]
  else add_tags experiment ["failure"].

(** The confusion matrix of the same model, if the calls that build it
    return. *)
Definition confusion_matrix_of (is_standardized n_components : Py.value)
  : option Dataframe :=
  let classifier :=
    if Py.truthy is_standardized
    then make_pipeline [StandardScaler; PCA n_components; GaussianNB]
    else make_pipeline [PCA n_components; GaussianNB] in
  pred_test ← fit_predict env classifier (X_train env) (y_train env) (X_test env);
  actual ← take env (target_names (wine env)) (y_test env);
  predicted ← take env (target_names (wine env)) pred_test;
  crosstab env actual predicted ["actual"] ["predicted"].

(** The tag that goes with an accuracy. *)
Definition verdict (accuracy : float) : string :=
  if ge accuracy point_nine then "success" else "failure".

(** The calls of one run on its experiment, after logging it, as far as the
    run gets: it stops short of the metric if the accuracy cannot be
    computed, and short of the dataframe and the tag if the confusion matrix
    cannot be built. *)
Definition script (is_standardized n_components : Py.value) : list op :=
  [ LogParameter "is_standardized" is_standardized;
    LogParameter "n_components" n_components ]
  ++ (LogFeature <$> feature_names (wine env))
  ++ match accuracy_of is_standardized n_components with
     | None => []
     | Some accuracy =>
         LogMetric "accuracy" accuracy
         :: match confusion_matrix_of is_standardized n_components with
            | None => []
            | Some confusion_matrix =>
                [ LogDataframe confusion_matrix ["confusion matrix"];
                  AddTags [verdict accuracy] ]
            end
     end.

(** The experiment one run is expected to leave behind. *)
Definition logged (pr : Project) (is_standardized n_components : Py.value)
  : Experiment :=
  {| project_name := name pr;
     model_name := "GaussianNB";
     parameters := [("is_standardized", is_standardized);
                    ("n_components", n_components)];
     features := feature_names (wine env);
     metrics :=
       match accuracy_of is_standardized n_components with
       | None => []
       | Some accuracy => [("accuracy", accuracy)]
       end;
     dataframes :=
       match accuracy_of is_standardized n_components,
             confusion_matrix_of is_standardized n_components with
       | Some _, Some confusion_matrix =>
           [(confusion_matrix, ["confusion matrix"])]
       | _, _ => []
       end;
     tags :=
       match accuracy_of is_standardized n_components,
             confusion_matrix_of is_standardized n_components with
       | Some accuracy, Some _ => {[ verdict accuracy ]}
       | _, _ => ∅
       end |}.

(** The client calls one run is expected to make on experiment [e], in order. *)
Definition expected_calls (e : ExpId) (pr : Project)
    (is_standardized n_components : Py.value) : list event :=
  Created e (name pr) "GaussianNB"
  :: (Called e <$> script is_standardized n_components).

(** *** The fan-out over configurations *)

(** A [multiprocessing.Process] whose target is [run_experiment]. *)
Record Process := {
  args : list Project;
  kwargs : gmap string Py.value }.

(** The cell that fills [processes]. *)
Definition build_processes (project : Project) : option (list Process) :=
  foldl
    (λ acc (is_standardized : bool),
       processes ← acc;
       ns ← Py.range 1 15 2;
       Some (foldl
               (λ processes n_components,
                  processes ++
                  [ {| args := [project];
                       kwargs := {[ "is_standardized" := Py.VBool is_standardized;
                                    "n_components" := Py.VInt n_components ]} |} ])
               processes ns))
    (Some []) [true; false].

(** The configuration a process was built for. *)
Definition config (p : Process) : option Py.value * option Py.value :=
  (kwargs p !! "is_standardized", kwargs p !! "n_components").

(** The call of [run_experiment] with the positional and keyword arguments
    of a process, for the call shape the notebook uses,
    the project as the only positional argument: keywords left out take the
    defaults [False] and [2]; an unknown keyword or another number of
    positional arguments is a [TypeError], which is [None]. *)
Definition call_target (p : Process) : option (prog unit) :=
  match args p with
  | [project] =>
      if decide (dom (kwargs p) ⊆ {[ "is_standardized"; "n_components" ]})
      then Some (run_experiment project
                   (default (Py.VBool false) (kwargs p !! "is_standardized"))
                   (default (Py.VInt 2) (kwargs p !! "n_components")))
      else None
  | _ => None
  end.

(** What a started process does; one whose call fails on entry raises
    before it calls anything. *)
Definition worker (p : Process) : prog unit :=
  default Raise (call_target p).

(** The calls the parent makes on the process objects, each object named by
    its position in [processes]. *)
Inductive parent_call :=
| Start (i : nat)
| Join (i : nat).

(** The cell with the two loops, [process.start()] then [process.join()]. *)
Definition start_then_join (processes : list Process) : list parent_call :=
  imap (λ i _, Start i) processes ++ imap (λ i _, Join i) processes.

End RunExperiment.

(** *** Clients and the published catalog *)

(** Keyword arguments of one [Rubicon(...)] call. *)
Abbreviation Kwargs := (gmap string Py.value).

Definition root_dir : string := "./rubicon-root".

(** [rubicon = Rubicon(persistence="filesystem", root_dir=root_dir)] *)
Definition rubicon : Kwargs :=
  {[ "persistence" := Py.VStr "filesystem"; "root_dir" := Py.VStr root_dir ]}.

(** [project = rubicon.get_or_create_project("Wine Classification")] *)
Definition project : Project := {| name := "Wine Classification" |}.

(** The client shown in the text of the "S3 Logging" section. *)
Definition rubicon_in_text : Kwargs :=
  {[ "persistence" := Py.VStr "filesystem";
     "root_dir" := Py.VStr "s3://my-bucket/path/to/rubicon-root" ]}.

Definition s3_path : string := "s3://my-bucket/path/to/rubicon-root".

(** [rubicon_s3 = Rubicon(persistence="filesystem", root_dir=s3_path)] *)
Definition rubicon_s3 : Kwargs :=
  {[ "persistence" := Py.VStr "filesystem"; "root_dir" := Py.VStr s3_path ]}.

(** [project_s3 = rubicon_s3.get_project("Wine Classification")] *)
Definition project_s3 : Project := {| name := "Wine Classification" |}.

(** The working directory's files, by the path they are opened with. *)
Abbreviation Files := (gmap string string).

Section Catalog.

(** The text of the catalog for the experiments of a project that carry the
    given tags; the catalog format is the library's and is left open. *)
Variable catalog_yaml : gmap nat Experiment → string → list string → string.

(** Modelled from the spec: [publish], which is library code outside the
    supplied files.  It produces a single YAML catalog file, a pointer to the
    published data, at [output_filepath], and neither changes nor moves the
    data. *)
Definition publish (experiments : gmap nat Experiment) (project_name : string)
    (experiment_tags : list string) (output_filepath : string)
    (files : Files) : Files :=
  <[output_filepath := catalog_yaml experiments project_name experiment_tags]> files.

(** Modelled from the spec: the third-party [open_catalog], which consumes
    the catalog file at the path it is given; a missing file is an error. *)
Definition open_catalog (path : string) (files : Files) : option string :=
  files !! path.

(** The cell that publishes, given the experiments [rubicon_s3] sees. *)
Definition publish_cell (experiments : gmap nat Experiment) (files : Files) : Files :=
  publish experiments (name project_s3) ["success"] "./wine_catalog.yml" files.

(** The cell that consumes. *)
Definition consume_cell (files : Files) : option string :=
  open_catalog "./wine_catalog.yml" files.

End Catalog.

End QuickLook.

(** ** notebooks/git-integration.ipynb *)

Module GitIntegration.

(** [rubicon = Rubicon(persistence="memory", auto_git_enabled=True)] *)
Definition rubicon : QuickLook.Kwargs :=
  {[ "persistence" := Py.VStr "memory"; "auto_git_enabled" := Py.VBool true ]}.

End GitIntegration.

(** ** The constructor's configuration surface *)

Module Config.

(** Every [Rubicon(...)] call of the two notebooks, in reading order. *)
Definition instantiations : list QuickLook.Kwargs :=
  [ QuickLook.rubicon; QuickLook.rubicon_in_text; QuickLook.rubicon_s3;
    GitIntegration.rubicon ].

Definition contains (needle s : string) : bool :=
  match String.index 0 needle s with Some _ => true | None => false end.

(** An [s3://...] URI. *)
Definition is_s3_uri (s : string) : bool := String.prefix "s3://" s.

(** A path on the local file system: one that names no protocol. *)
Definition is_local_path (s : string) : bool := negb (contains "://" s).

Definition persistence_ok (v : Py.value) : bool :=
  bool_decide (v = Py.VStr "filesystem") || bool_decide (v = Py.VStr "memory").

Definition root_dir_ok (v : Py.value) : bool :=
  match v with
  | Py.VStr s => is_local_path s || is_s3_uri s
  | _ => false
  end.

End Config.

(** ** The "Publish docs" workflow *)

Module Workflow.

(** What makes GitHub consider a workflow: the event's name and, for events
    that have them, the activity type. *)
Record Event := {
  event_name : string;
  activity : option string }.

(** One entry under [on:], with its [types:] filter if it has one. *)
Record Trigger := { types : option (list string) }.

Record Step := {
  step_name : option string;
  uses : option string;
  inputs : gmap string string;
  run : option (list string);
  shell : option string }.

Record Job := {
  runs_on : string;
  steps : list Step }.

Record Workflow := {
  workflow_name : string;
  on : gmap string Trigger;
  jobs : gmap string Job }.

Definition publish_docs : Workflow :=
  {| workflow_name := "Publish docs";
     on := {[ "release" := {| types := Some ["created"] |};
              "workflow_dispatch" := {| types := None |} ]};
     jobs := {[ "build-and-deploy" :=
       {| runs_on := "ubuntu-latest";
          steps :=
            [ {| step_name := None;
                 uses := Some "actions/checkout@v2";
                 inputs := {[ "fetch-depth" := "0" ]};
                 run := None; shell := None |};
              {| step_name := Some "Set up Python";
                 uses := Some "actions/setup-python@v2";
                 inputs := {[ "python-version" := "3.8" ]};
                 run := None; shell := None |};
              {| step_name := Some "Add conda to system path";
                 uses := None; inputs := ∅;
                 run := Some
                   [ "# $CONDA is an environment variable pointing to the root of the miniconda directory";
                     "echo $CONDA/bin >> $GITHUB_PATH" ];
                 shell := None |};
              {| step_name := Some "Install dependencies";
                 uses := None; inputs := ∅;
                 run := Some
                   [ "conda env update --file docs/docs-environment.yml --name base" ];
                 shell := None |};
              {| step_name := Some "Build";
                 uses := None; inputs := ∅;
                 run := Some [ "cd docs"; "bash build-docs.sh" ];
                 shell := Some "bash" |};
              {| step_name := Some "Publish";
                 uses := Some "JamesIves/github-pages-deploy-action@4.0.0";
                 inputs := {[ "branch" := "gh-pages";
                              "folder" := "docs/build/html" ]};
                 run := None; shell := None |} ] |} ]} |}.

(** Whether an event starts the workflow: its name is listed under [on:]
    and, if the entry filters on [types:], its activity type is among them. *)
Definition triggered_by (w : Workflow) (ev : Event) : bool :=
  match on w !! event_name ev with
  | None => false
  | Some t =>
      match types t with
      | None => true
      | Some ts =>
          match activity ev with
          | Some a => bool_decide (a ∈ ts)
          | None => false
          end
      end
  end.

(** What a script line amounts to for the documentation build. *)
Inductive effect :=
| RunsScript (interpreter dir script : string)
| Other (line : string).

Definition enter (cwd d : string) : string :=
  if String.eqb cwd "" then d else cwd +:+ "/" +:+ d.

(** One line of a [run:] script, from the directory the line starts in
    (the empty string is the checkout): [cd] moves, a line starting with
    [#] is a comment, [bash f] runs a script. *)
Definition exec_line (st : string * list effect) (line : string)
  : string * list effect :=
  let '(cwd, done) := st in
  match String.words line with
  | [] => st
  | [ "cd"; d ] => (enter cwd d, done)
  | [ "bash"; f ] => (cwd, done ++ [RunsScript "bash" cwd f])
  | w :: _ => if String.prefix "#" w then st else (cwd, done ++ [Other line])
  end.

Definition exec_script (lines : list string) : list effect :=
  (foldl exec_line ("", []) lines).2.

(** The repository and the version of the action a step uses. *)
Definition action_repo (u : string) : string :=
  match String.index 0 "@" u with
  | Some i => String.substring 0 i u
  | None => u
  end.

(** An action that is neither part of this repository nor one of GitHub's. *)
Definition third_party (u : string) : bool :=
  negb (String.prefix "./" u) && negb (String.prefix "actions/" u).

End Workflow.

(** ** A small instance *)

Module Sample.
Import Rubicon QuickLook.

(** The client takes an identifier the store does not hold yet. *)
Definition new_id (s : gmap nat Experiment) : nat := fresh (dom s).

(** The share of positions at which the two label lists agree; lists of
    different lengths, or empty ones, are refused. *)
Definition accuracy_score (y_true y_pred : Labels) : option float :=
  if bool_decide (length y_true = length y_pred ∧ y_true ≠ [])
  then
    let hits := length (filter (λ '(a, b), a = b) (zip y_true y_pred)) in
    Some (PrimFloat.div (PrimFloat.of_uint63 (Uint63.of_Z (Z.of_nat hits)))
            (PrimFloat.of_uint63 (Uint63.of_Z (Z.of_nat (length y_true)))))
  else None.

(** A principal component analysis keeps at most as many components as the
    training data have rows and columns, and at least one; it is refused
    any other [n_components] than such a number. *)
Definition stage_fits (X : Matrix) (st : Stage) : bool :=
  match st with
  | PCA (Py.VInt n) =>
      bool_decide (1 ≤ n ≤ Z.of_nat (length X) ∧
                   Forall (λ row, n ≤ Z.of_nat (length row)) X)
  | PCA _ => false
  | _ => true
  end.

(** Fitting is refused if a stage does not fit the training data; the
    fitted classifier answers class 0 whatever it is shown. *)
Definition fit_predict (steps : list Stage) (X : Matrix) (y : Labels)
    (X' : Matrix) : option Labels :=
  if forallb (stage_fits X) steps then Some ((λ _, 0) <$> X') else None.

(** Indexing by labels; a label that is no position of the list is refused. *)
Definition take (names : list string) (labels : Labels) : option (list string) :=
  mapM (λ i, if bool_decide (0 ≤ i) then names !! Z.to_nat i else None) labels.

Definition crosstab (rows cols rownames colnames : list string)
  : option Dataframe :=
  if bool_decide (length rows = length cols)
  then Some {| df_rownames := rownames; df_colnames := colnames;
               df_index := rows; df_columns := cols; df_cells := [] |}
  else None.

(** The thirteen features and three classes of the wine data, thirteen
    training rows and four test rows. *)
Definition env : Env :=
  {| wine := {| data := []; target := [];
                feature_names :=
                  [ "alcohol"; "malic_acid"; "ash"; "alcalinity_of_ash";
                    "magnesium"; "total_phenols"; "flavanoids";
                    "nonflavanoid_phenols"; "proanthocyanins";
                    "color_intensity"; "hue";
                    "od280/od315_of_diluted_wines"; "proline" ];
                target_names := ["class_0"; "class_1"; "class_2"] |};
     X_train := replicate 13 (replicate 13 0%float);
     X_test := replicate 4 (replicate 13 0%float);
     y_train := replicate 13 0; y_test := [0; 0; 1; 0];
     QuickLook.fit_predict := fit_predict;
     QuickLook.accuracy_score := accuracy_score;
     QuickLook.take := take;
     QuickLook.crosstab := crosstab |}.

End Sample.

(** ** The parent and its processes together *)

Module Fanout.
Import Rubicon QuickLook.

(** The calls a program that logs no experiment will still make. *)
Fixpoint ops_of {A} (p : prog A) : list op :=
  match p with
  | Ret _ | Raise => []
  | LogExperimentK _ _ _ => []
  | CallK _ c k => c :: ops_of k
  end.

(** A program that has yet to begin, begins by logging an experiment of the
    given model to [project], and goes on with the given calls on it. *)
Definition begins_with {A} (project model : string) (ops : list op)
    (p : prog A) : Prop :=
  match p with
  | LogExperimentK pr m k =>
      pr = project ∧ m = model ∧ ∀ e, confined e (k e) ∧ ops_of (k e) = ops
  | _ => False
  end.

(** Each program of the pool is somewhere along its own list of calls: it
    has made none yet, or has logged its experiment and made the first few
    calls of the list, the rest being what is left of its code. *)
Definition on_script (project : string) (scripts : list (string * list op))
    (w : world) : Prop :=
  length (pool w) = length scripts ∧
  ∀ i p model ops, pool w !! i = Some p → scripts !! i = Some (model, ops) →
    (events_of i (journal w) = [] ∧ begins_with project model ops p) ∨
    (∃ e cs, events_of i (journal w) = Created e project model :: (Called e <$> cs)
             ∧ confined e p ∧ cs ++ ops_of p = ops).

(** The store holds what it held at the start and the experiments the
    journal speaks of. *)
Definition accounted (s0 : gmap nat Experiment) (w : world) : Prop :=
  dom (store w) = dom s0 ∪ list_to_set (subject <$> (journal w).*2).

Section System.

Variable new_id : gmap nat Experiment → nat.
Variable env : Env.

(** The script of the process built for a configuration. *)
Definition script_of (p : Process) : string * list op :=
  ("GaussianNB",
   script env (default (Py.VBool false) (kwargs p !! "is_standardized"))
              (default (Py.VInt 2) (kwargs p !! "n_components"))).

(** The parent in the cell that starts and joins, next to the processes.
    [todo] are the calls the parent has yet to make; [started] the processes
    it has started; [raised] whether one of its calls has raised. *)
Record system := {
  todo : list parent_call;
  started : gset nat;
  raised : bool;
  shared : world }.

(** Who moves next. *)
Inductive turn :=
| Parent
| Child (i : nat).

(** A started process whose code has come to its end. *)
Definition has_exited (σ : system) (i : nat) : bool :=
  bool_decide (i ∈ started σ) &&
  match pool (shared σ) !! i with
  | Some p => ended p
  | None => false
  end.

(** The parent's next call.  [start] on a process that was started raises
    (an assertion of [multiprocessing]: a process cannot be started twice);
    [join] on one that was not started raises as well, and otherwise returns
    once the process has exited: until then the parent stays where it is. *)
Definition parent_step (σ : system) : system :=
  if raised σ then σ else
  match todo σ with
  | [] => σ
  | Start i :: rest =>
      if bool_decide (i ∈ started σ)
      then {| todo := todo σ; started := started σ; raised := true;
              shared := shared σ |}
      else {| todo := rest; started := {[ i ]} ∪ started σ; raised := false;
              shared := shared σ |}
  | Join i :: rest =>
      if bool_decide (i ∈ started σ)
      then if has_exited σ i
           then {| todo := rest; started := started σ; raised := false;
                   shared := shared σ |}
           else σ
      else {| todo := todo σ; started := started σ; raised := true;
              shared := shared σ |}
  end.

(** One move: the parent's next call, or one client call of a process that
    has been started. *)
Definition system_step (σ : system) (t : turn) : system :=
  match t with
  | Parent => parent_step σ
  | Child i =>
      if bool_decide (i ∈ started σ)
      then {| todo := todo σ; started := started σ; raised := raised σ;
              shared := pool_step new_id (shared σ) i |}
      else σ
  end.

Definition system_run (σ : system) (turns : list turn) : system :=
  foldl system_step σ turns.

(** The moment the cell begins: nothing started, nothing logged yet. *)
Definition boot (processes : list Process) (s0 : gmap nat Experiment) : system :=
  {| todo := start_then_join processes;
     started := ∅;
     raised := false;
     shared := {| pool := worker env <$> processes; store := s0; journal := [] |} |}.

(** The experiment a process has logged, if it has. *)
Definition experiment_of (i : nat) (j : list (nat * event)) : option nat :=
  subject <$> head (events_of i j).

(** Where the parent stands: no call of its has raised; it has made the
    first [k] calls of the cell; it has started the processes its [start]
    calls so far were for; and the processes its [join] calls so far were
    for have run to their end. *)
Definition in_step (processes : list Process) (σ : system) : Prop :=
  raised σ = false ∧
  length (pool (shared σ)) = length processes ∧
  ∃ k : nat,
    todo σ = drop k (start_then_join processes) ∧
    (∀ i, i ∈ started σ ↔ (i < k)%nat ∧ (i < length processes)%nat) ∧
    (∀ i, (length processes + i < k)%nat →
          ∃ p, pool (shared σ) !! i = Some p ∧ ended p = true).

End System.

(** Everything started at once, then each process in turn to its end, then
    all the joins. *)
Definition one_by_one (n calls : nat) : list turn :=
  replicate n Parent
  ++ (i ← seq 0 n; replicate calls (Child i))
  ++ replicate n Parent.

End Fanout.

(** ** A small run of the whole cell *)

Module SampleRun.
Import Rubicon QuickLook Fanout.

(** The fourteen processes the notebook builds for its project. *)
Definition processes : list Process :=
  b ← [true; false];
  n ← [1; 3; 5; 7; 9; 11; 13];
  [ {| args := [project];
       kwargs := {[ "is_standardized" := Py.VBool b;
                    "n_components" := Py.VInt n ]} |} ].

(** With the thirteen features of the small instance a run makes nineteen
    calls. *)
Definition turns : list turn := one_by_one 14 19.

End SampleRun.

(** * Properties *)

Import Rubicon QuickLook Fanout.

(** ** Building the processes *)

Lemma range_1_15_2 : Py.range 1 15 2 = Some [1; 3; 5; 7; 9; 11; 13].
Proof. reflexivity. Qed.

Lemma odd_below_15 (n : Z) :
  1 ≤ n < 15 ∧ Z.odd n = true ↔ n ∈ [1; 3; 5; 7; 9; 11; 13].
Proof.
  split.
  - intros [Hn Hodd]. apply Z.odd_spec in Hodd as [m ->].
    assert (Hm : m = 0 ∨ m = 1 ∨ m = 2 ∨ m = 3 ∨ m = 4 ∨ m = 5 ∨ m = 6) by lia.
    clear Hn. destruct Hm as [Hm | [Hm | [Hm | [Hm | [Hm | [Hm | Hm]]]]]];
      rewrite Hm; apply (bool_decide_unpack _); by vm_compute.
  - intros Hin. repeat (apply elem_of_cons in Hin as [-> | Hin]);
      [split; [lia | reflexivity] .. | by apply elem_of_nil in Hin].
Qed.

Lemma build_processes_unfold (pr : Project) :
  build_processes pr =
    Some (b ← [true; false];
          n ← [1; 3; 5; 7; 9; 11; 13];
          [ {| args := [pr];
               kwargs := {[ "is_standardized" := Py.VBool b;
                            "n_components" := Py.VInt n ]} |} ]).
Proof. reflexivity. Qed.

Lemma config_of_kwargs (pr : Project) (a b : Py.value) :
  config {| args := [pr];
            kwargs := {[ "is_standardized" := a; "n_components" := b ]} |}
  = (Some a, Some b).
Proof.
  unfold config. cbn [kwargs].
  rewrite lookup_insert_eq, lookup_insert_ne by done.
  by rewrite lookup_singleton_eq.
Qed.

Lemma dom_of_kwargs (a b : Py.value) :
  dom ({[ "is_standardized" := a; "n_components" := b ]} : gmap string Py.value)
  = {[ "is_standardized"; "n_components" ]}.
Proof. by rewrite dom_insert_L, dom_singleton_L. Qed.

(** The configurations, in the order the two loops visit them. *)
Lemma build_processes_configs (pr : Project) :
  ∃ processes,
    build_processes pr = Some processes ∧
    config <$> processes =
      (b ← [true; false];
       n ← [1; 3; 5; 7; 9; 11; 13];
       [(Some (Py.VBool b), Some (Py.VInt n))]) ∧
    Forall (λ p, args p = [pr] ∧
                 dom (kwargs p) = {[ "is_standardized"; "n_components" ]}) processes.
Proof.
  eexists. split; [apply build_processes_unfold |].
  split.
  - cbn [mbind list_bind mret list_ret fmap list_fmap app].
    by rewrite !config_of_kwargs.
  - cbn [mbind list_bind mret list_ret app].
    repeat (apply Forall_cons; split; [split; [reflexivity | apply dom_of_kwargs] |]).
    apply Forall_nil_2.
Qed.

Lemma build_processes_length (pr : Project) :
  ∃ processes, build_processes pr = Some processes ∧ length processes = 14%nat.
Proof.
  destruct (build_processes_configs pr) as (ps & Hps & Hcfg & _).
  exists ps. split; [done |]. by rewrite <- (length_fmap config), Hcfg.
Qed.

(** C2: the two nested loops append exactly 14 processes, one for each pair
    of an [is_standardized] in [True, False] and an odd [n_components] from 1
    up to 13, and no two of them have the same configuration. *)
Theorem fourteen_distinct_configurations (pr : Project) :
  ∃ processes,
    build_processes pr = Some processes ∧
    length processes = 14%nat ∧
    NoDup (config <$> processes) ∧
    ∀ (b : bool) (n : Z),
      (Some (Py.VBool b), Some (Py.VInt n)) ∈ config <$> processes
      ↔ 1 ≤ n < 15 ∧ Z.odd n = true.
Proof.
  destruct (build_processes_configs pr) as (ps & Hps & Hcfg & _).
  exists ps. split; [done |].
  split; [by rewrite <- (length_fmap config), Hcfg |].
  rewrite Hcfg. split.
  - apply (bool_decide_unpack _). by vm_compute.
  - intros b n. rewrite odd_below_15. split.
    + intros Hin. apply list_elem_of_bind in Hin as (b' & Hin & _).
      apply list_elem_of_bind in Hin as (n' & Hin & Hn').
      apply list_elem_of_singleton in Hin. by simplify_eq.
    + intros Hn. apply list_elem_of_bind. exists b.
      split; [| destruct b; repeat constructor].
      apply list_elem_of_bind. exists n.
      split; [by apply list_elem_of_singleton | done].
Qed.

(** ** Starting and joining *)

Section StartThenJoin.

Context (processes : list Process).

Lemma start_then_join_start (a j : nat) :
  start_then_join processes !! a = Some (Start j)
  ↔ a = j ∧ (j < length processes)%nat.
Proof.
  unfold start_then_join. split.
  - intros Hlook. apply lookup_app_Some in Hlook as [Hl | [_ Hr]].
    + rewrite list_lookup_imap in Hl.
      destruct (processes !! a) eqn:Hp; simplify_eq/=.
      split; [done | by eapply lookup_lt_Some].
    + rewrite list_lookup_imap in Hr.
      by destruct (processes !! _); simplify_eq/=.
  - intros [-> Hlt]. apply lookup_lt_is_Some in Hlt as [p Hp].
    apply lookup_app_l_Some. by rewrite list_lookup_imap, Hp.
Qed.

Lemma start_then_join_join (a i : nat) :
  start_then_join processes !! a = Some (Join i)
  ↔ a = (length processes + i)%nat ∧ (i < length processes)%nat.
Proof.
  unfold start_then_join. split.
  - intros Hlook. apply lookup_app_Some in Hlook as [Hl | [Hge Hr]].
    + rewrite list_lookup_imap in Hl.
      by destruct (processes !! a); simplify_eq/=.
    + rewrite length_imap in Hge, Hr. rewrite list_lookup_imap in Hr.
      destruct (processes !! _) eqn:Hp; simplify_eq/=.
      apply lookup_lt_Some in Hp. lia.
  - intros [-> Hlt]. apply lookup_lt_is_Some in Hlt as [p Hp].
    rewrite lookup_app_r; rewrite length_imap; [| lia].
    rewrite list_lookup_imap.
    replace (length processes + i - length processes)%nat with i by lia.
    by rewrite Hp.
Qed.

(** By the time any process is joined, each process of the list has been
    started. *)
Lemma joined_after_all_started (a i j : nat) :
  start_then_join processes !! a = Some (Join i) →
  (j < length processes)%nat →
  ∃ b, (b < a)%nat ∧ start_then_join processes !! b = Some (Start j).
Proof.
  intros [-> Hi]%start_then_join_join Hj. exists j.
  split; [lia | by apply start_then_join_start].
Qed.

Lemma start_precedes_join (a b i j : nat) :
  start_then_join processes !! a = Some (Join i) →
  start_then_join processes !! b = Some (Start j) →
  (b < a)%nat.
Proof.
  intros [-> Hi]%start_then_join_join [-> Hj]%start_then_join_start. lia.
Qed.

Lemma started_and_joined (i : nat) :
  (i < length processes)%nat →
  Start i ∈ start_then_join processes ∧ Join i ∈ start_then_join processes.
Proof.
  intros Hi. split; apply list_elem_of_lookup.
  - exists i. by apply start_then_join_start.
  - exists (length processes + i)%nat. by apply start_then_join_join.
Qed.

Lemma start_then_join_NoDup : NoDup (start_then_join processes).
Proof.
  apply NoDup_alt. intros a b [i | i] Ha Hb.
  - apply start_then_join_start in Ha as [-> _].
    by apply start_then_join_start in Hb as [-> _].
  - apply start_then_join_join in Ha as [-> _].
    by apply start_then_join_join in Hb as [-> _].
Qed.

End StartThenJoin.

(** C4: each of the 14 processes is started and is joined, once each, and
    the parent joins no process before it has started every process of the
    list: all calls of [start] come before all calls of [join]. *)
Theorem all_started_before_first_join (pr : Project) :
  ∃ processes,
    build_processes pr = Some processes ∧
    length processes = 14%nat ∧
    let calls := start_then_join processes in
    NoDup calls ∧
    (∀ i, (i < 14)%nat → Start i ∈ calls ∧ Join i ∈ calls) ∧
    (∀ a i j, calls !! a = Some (Join i) → (j < 14)%nat →
              ∃ b, (b < a)%nat ∧ calls !! b = Some (Start j)) ∧
    (∀ a b i j, calls !! a = Some (Join i) → calls !! b = Some (Start j) →
                (b < a)%nat).
Proof.
  destruct (build_processes_length pr) as (ps & Hps & Hlen).
  exists ps. split; [done |]. split; [done |]. cbv zeta.
  split; [apply start_then_join_NoDup |].
  rewrite <- Hlen. split; [apply started_and_joined |].
  split; [apply joined_after_all_started | apply start_precedes_join].
Qed.

(** ** Code that keeps to one experiment *)

Lemma confined_bind {A B} (e : nat) (p : prog A) (f : A → prog B) :
  confined e p → (∀ a, confined e (f a)) → confined e (p ≫= f).
Proof.
  intros Hp Hf. induction p as [a | | pr m k IH | e' c k IH].
  - apply Hf.
  - done.
  - destruct Hp.
  - destruct Hp as [-> Hk]. split; [done | by apply IH].
Qed.

Lemma confined_for_each {A} (e : nat) (xs : list A) (body : A → prog unit) :
  (∀ x, confined e (body x)) → confined e (for_each xs body).
Proof.
  intros Hbody. induction xs as [| x xs IH]; [done |].
  apply confined_bind; [apply Hbody | by intros _].
Qed.

Lemma confined_returned {A} (e : nat) (o : option A) : confined e (returned o).
Proof. by destruct o. Qed.

Lemma ops_of_bind {A B} (e : nat) (p : prog A) (f : A → prog B) :
  confined e p →
  ops_of (p ≫= f) =
    ops_of p ++ match result p with Some a => ops_of (f a) | None => [] end.
Proof.
  induction p as [a | | pr m k IH | e' c k IH]; intros Hp.
  - done.
  - done.
  - destruct Hp.
  - destruct Hp as [_ Hk].
    change (CallK e' c k ≫= f) with (CallK e' c (k ≫= f)).
    cbn [ops_of result]. by rewrite IH.
Qed.

Lemma result_bind {A B} (e : nat) (p : prog A) (f : A → prog B) :
  confined e p → result (p ≫= f) = result p ≫= λ a, result (f a).
Proof.
  induction p as [a | | pr m k IH | e' c k IH]; intros Hp.
  - done.
  - done.
  - destruct Hp.
  - destruct Hp as [_ Hk].
    change (CallK e' c k ≫= f) with (CallK e' c (k ≫= f)).
    cbn [result]. by apply IH.
Qed.

Lemma confined_log_features (e : nat) (names : list string) :
  confined e (for_each names (λ name, log_feature e name)).
Proof. by apply confined_for_each. Qed.

Lemma result_log_features (e : nat) (names : list string) :
  result (for_each names (λ name, log_feature e name)) = Some tt.
Proof. induction names as [| n names IH]; [done |]. apply IH. Qed.

Lemma ops_of_log_features (e : nat) (names : list string) :
  ops_of (for_each names (λ name, log_feature e name)) = LogFeature <$> names.
Proof.
  induction names as [| n names IH]; [done |]. cbn. by rewrite <- IH.
Qed.

Lemma replay_app (x : Experiment) (cs1 cs2 : list op) :
  replay x (cs1 ++ cs2) = replay (replay x cs1) cs2.
Proof. apply foldl_app. Qed.

Lemma replay_log_features (x : Experiment) (names : list string) :
  replay x (LogFeature <$> names) = with_features (features x ++ names) x.
Proof.
  revert x. induction names as [| n names IH]; intros x.
  - cbn. rewrite app_nil_r. by destruct x.
  - cbn. unfold replay in IH. rewrite IH. cbn. by rewrite <- app_assoc.
Qed.

Lemma after_log_features (e : nat) (names : list string) (q : prog unit) :
  confined e q →
  confined e (for_each names (λ name, log_feature e name) ≫= λ _, q) ∧
  ops_of (for_each names (λ name, log_feature e name) ≫= λ _, q)
    = (LogFeature <$> names) ++ ops_of q ∧
  result (for_each names (λ name, log_feature e name) ≫= λ _, q) = result q.
Proof.
  intros Hq. split; [| split].
  - apply confined_bind; [apply confined_log_features | done].
  - rewrite (ops_of_bind e) by apply confined_log_features.
    by rewrite ops_of_log_features, result_log_features.
  - rewrite (result_bind e) by apply confined_log_features.
    by rewrite result_log_features.
Qed.

(** Run on its own, such code makes its calls on the experiment one after
    the other and leaves every other experiment alone. *)
Lemma run_confined {A} (new_id : gmap nat Experiment → nat) (e : nat)
    (p : prog A) (x : Experiment) (s : gmap nat Experiment) :
  confined e p →
  Rubicon.run new_id p (<[e := x]> s) =
    (result p, <[e := replay x (ops_of p)]> s, Called e <$> ops_of p).
Proof.
  revert x. induction p as [a | | pr m k IH | e' c k IH]; intros x Hp.
  - done.
  - done.
  - destruct Hp.
  - destruct Hp as [-> Hk]. cbn [Rubicon.run ops_of result].
    rewrite alter_insert_eq, IH by done. done.
Qed.

(** ** One run of [run_experiment] *)

(** Brings the client calls and the returned values at the head of the code
    to the front. *)
Ltac client_calls :=
  unfold log_parameter, log_metric, log_dataframe, add_tags;
  repeat (first
    [ progress change (CallK ?e ?c (Ret tt) ≫= ?f) with (CallK e c (f tt))
    | progress change (Ret ?a ≫= ?f) with (f a)
    | progress change (Some ?a ≫= ?f) with (f a) ]; cbv beta).

(** The calls and the result of code that has raised. *)
Ltac raised_here :=
  cbn [returned mbind option_bind prog_bind bind ops_of result app].

Section OneRun.

Context (env : Env) (pr : Project) (is_standardized n_components : Py.value).

(** A run begins by logging its experiment and goes on with the calls of the
    script on it; it returns if the accuracy could be computed and the
    confusion matrix built, and raises otherwise. *)
Lemma run_experiment_shape :
  ∃ k, run_experiment env pr is_standardized n_components
       = LogExperimentK (name pr) "GaussianNB" k ∧
       ∀ e, confined e (k e) ∧
            ops_of (k e) = script env is_standardized n_components ∧
            result (k e) =
              (accuracy_of env is_standardized n_components ≫= λ _,
               confusion_matrix_of env is_standardized n_components ≫= λ _,
               Some tt).
Proof.
  eexists. split.
  { unfold run_experiment, log_experiment.
    change (LogExperimentK ?pr ?m Ret ≫= ?f) with (LogExperimentK pr m f).
    reflexivity. }
  intros e. cbv beta.
  unfold script, accuracy_of, confusion_matrix_of, make_pipeline.
  set (classifier := if Py.truthy is_standardized then _ else _).
  client_calls. cbn [confined ops_of result].
  match goal with
  | |- context [for_each _ _ ≫= ?f] =>
      set (q := f tt); change f with (λ _ : unit, q)
  end.
  destruct (after_log_features e (feature_names (wine env)) q) as (Hc & -> & ->).
  - subst q. cbv beta.
    destruct (fit_predict env classifier (X_train env) (y_train env)
                (X_test env)) as [pred_test |]; [| done].
    cbn [returned]. client_calls.
    destruct (accuracy_score env (y_test env) pred_test) as [accuracy |];
      [| done].
    cbn [returned]. client_calls. split; [done |].
    destruct (take env (target_names (wine env)) (y_test env)) as [actual |];
      [| done].
    cbn [returned]. client_calls.
    destruct (take env (target_names (wine env)) pred_test) as [predicted |];
      [| done].
    cbn [returned]. client_calls.
    destruct (crosstab env actual predicted ["actual"] ["predicted"])
      as [confusion_matrix |]; [| done].
    cbn [returned]. client_calls. split; [done |].
    by destruct (ge accuracy point_nine).
  - split; [done |]. subst q. cbv beta.
    destruct (fit_predict env classifier (X_train env) (y_train env)
                (X_test env)) as [pred_test |]; [| by raised_here].
    cbn [returned]. client_calls.
    destruct (accuracy_score env (y_test env) pred_test) as [accuracy |];
      [| by raised_here].
    cbn [returned]. client_calls. cbn [ops_of result].
    destruct (take env (target_names (wine env)) (y_test env)) as [actual |];
      [| by raised_here].
    cbn [returned]. client_calls.
    destruct (take env (target_names (wine env)) pred_test) as [predicted |];
      [| by raised_here].
    cbn [returned]. client_calls.
    destruct (crosstab env actual predicted ["actual"] ["predicted"])
      as [confusion_matrix |]; [| by raised_here].
    cbn [returned]. client_calls. cbn [ops_of result]. unfold verdict.
    by destruct (ge accuracy point_nine).
Qed.

End OneRun.

(** The calls of the script, made on a new experiment, give the experiment
    a run leaves behind. *)
Lemma replay_script (env : Env) (pr : Project)
    (is_standardized n_components : Py.value) :
  replay (new_experiment (name pr) "GaussianNB")
    (script env is_standardized n_components)
  = logged env pr is_standardized n_components.
Proof.
  unfold script. rewrite !replay_app, replay_log_features. unfold logged.
  destruct (accuracy_of env is_standardized n_components) as [accuracy |];
    [| done].
  destruct (confusion_matrix_of env is_standardized n_components) as [cm |];
    [| done].
  cbn. by rewrite (left_id_L ∅ (∪)), (right_id_L ∅ (∪)).
Qed.

(** One run on its own. *)
Lemma run_run_experiment (new_id : gmap nat Experiment → nat) (env : Env)
    (pr : Project) (is_standardized n_components : Py.value)
    (s : gmap nat Experiment) :
  Rubicon.run new_id (run_experiment env pr is_standardized n_components) s =
    (accuracy_of env is_standardized n_components ≫= λ _,
     confusion_matrix_of env is_standardized n_components ≫= λ _, Some tt,
     <[new_id s := logged env pr is_standardized n_components]> s,
     expected_calls env (new_id s) pr is_standardized n_components).
Proof.
  destruct (run_experiment_shape env pr is_standardized n_components)
    as (k & -> & Hk).
  destruct (Hk (new_id s)) as (Hconf & Hops & Hres).
  cbn [Rubicon.run]. rewrite run_confined by done.
  by rewrite Hops, Hres, replay_script.
Qed.

Lemma tags_added_app (t1 t2 : list event) :
  tags_added (t1 ++ t2) = tags_added t1 ++ tags_added t2.
Proof. apply bind_app. Qed.

Lemma tags_added_log_features (e : nat) (names : list string) :
  tags_added (Called e <$> (LogFeature <$> names)) = [].
Proof. by induction names. Qed.



Lemma fresh_id_fresh (s : gmap nat Experiment) : s !! (fresh_id s) = None.
Proof. apply not_elem_of_dom. unfold fresh_id. apply is_fresh. Qed.

(** A run with [n_components=14] on data of thirteen features: fitting
    raises, the run ends there, and the experiment it has logged by then has
    its parameters and features but no metric, no dataframe and no tag. *)
Lemma run_experiment_stops_when_fit_raises :
  let r := Rubicon.run fresh_id
             (run_experiment Sample.env project (Py.VBool false) (Py.VInt 14)) ∅ in
  r.1.1 = None ∧
  (∃ x, r.1.2 !! (fresh_id ∅) = Some x ∧
        parameters x = [("is_standardized", Py.VBool false);
                        ("n_components", Py.VInt 14)] ∧
        features x = feature_names (wine Sample.env) ∧
        metrics x = [] ∧ dataframes x = [] ∧ tags x = ∅) ∧
  (∀ e k v, Called e (LogMetric k v) ∉ r.2) ∧
  tags_added r.2 = [] ∧
  ¬ (∃ x accuracy, r.1.2 !! (fresh_id ∅) = Some x ∧
                   metrics x = [("accuracy", accuracy)]).
Proof.
  cbv zeta. rewrite run_run_experiment. cbn [fst snd].
  assert (Hacc : accuracy_of Sample.env (Py.VBool false) (Py.VInt 14) = None)
    by (by vm_compute).
  unfold expected_calls, script, logged. rewrite Hacc.
  split; [done |]. split.
  { eexists. split; [apply lookup_insert_eq |]. by repeat split. }
  split.
  { intros e k v Hin. apply elem_of_cons in Hin as [? | Hin]; [done |].
    apply list_elem_of_fmap in Hin as (c & Hc & Hin). rewrite app_nil_r in Hin.
    apply elem_of_app in Hin as [Hin | Hin].
    - repeat (apply elem_of_cons in Hin as [-> | Hin]; [done |]).
      by apply elem_of_nil in Hin.
    - apply list_elem_of_fmap in Hin as (f & -> & _). done. }
  split.
  { rewrite app_nil_r.
    change (Created ?e ?p ?m :: ?l) with ([Created e p m] ++ l).
    rewrite fmap_app, !tags_added_app, tags_added_log_features. done. }
  intros (x & accuracy & Hx & Hm). rewrite lookup_insert_eq in Hx.
  by simplify_eq.
Qed.

(** C10: a call of [run_experiment] in which the calls to scikit-learn,
    NumPy and pandas return, so that the accuracy is computed and the
    confusion matrix built, returns after logging one experiment the project
    did not hold before, leaving every other experiment as it was; to the
    new experiment it logs the two parameters "is_standardized" and
    "n_components" with the values it was called with, one feature for each
    entry of [wine.feature_names], the one metric "accuracy" and one
    dataframe tagged "confusion matrix", in this order, and only then adds
    the single success or failure tag. *)
Theorem run_experiment_logs_one_experiment
    (env : Env) (pr : Project)
    (is_standardized n_components : Py.value) (s : gmap nat Experiment)
    (accuracy : float) (confusion_matrix : Dataframe) :
  accuracy_of env is_standardized n_components = Some accuracy →
  confusion_matrix_of env is_standardized n_components = Some confusion_matrix →
  let e := fresh_id s in
  let r := Rubicon.run fresh_id
             (run_experiment env pr is_standardized n_components) s in
  r.1.1 = Some tt ∧
  (e ∉ dom s) ∧
  dom r.1.2 = {[ e ]} ∪ dom s ∧
  size r.1.2 = S (size s) ∧
  (∀ e', e' ≠ e → r.1.2 !! e' = s !! e') ∧
  (∃ x tag,
     r.1.2 !! e = Some x ∧
     project_name x = name pr ∧
     parameters x = [("is_standardized", is_standardized);
                     ("n_components", n_components)] ∧
     features x = feature_names (wine env) ∧
     length (features x) = length (feature_names (wine env)) ∧
     metrics x = [("accuracy", accuracy)] ∧
     dataframes x = [(confusion_matrix, ["confusion matrix"])] ∧
     tags x = {[ tag ]} ∧
     tag = verdict accuracy ∧
     (tag = "success" ∨ tag = "failure") ∧
     r.2 =
       [ Created e (name pr) "GaussianNB";
         Called e (LogParameter "is_standardized" is_standardized);
         Called e (LogParameter "n_components" n_components) ]
       ++ ((λ k, Called e (LogFeature k)) <$> feature_names (wine env))
       ++ [ Called e (LogMetric "accuracy" accuracy);
            Called e (LogDataframe confusion_matrix ["confusion matrix"]);
            Called e (AddTags [tag]) ]).
Proof.
  intros Hacc Hcm e r. subst r. rewrite run_run_experiment. fold e.
  cbn [fst snd]. pose proof (fresh_id_fresh s) as Hfresh. fold e in Hfresh.
  split; [by rewrite Hacc, Hcm |].
  split; [by apply not_elem_of_dom |].
  split; [apply dom_insert_L |].
  split; [by apply map_size_insert_None |].
  split; [intros e' Hne; by apply lookup_insert_ne |].
  exists (logged env pr is_standardized n_components), (verdict accuracy).
  split; [apply lookup_insert_eq |].
  unfold logged, expected_calls, script. rewrite Hacc, Hcm.
  do 8 (split; [reflexivity |]).
  split; [unfold verdict; destruct (ge _ _); [by left | by right] |].
  rewrite !fmap_app. cbn [app fmap list_fmap].
  do 4 f_equal. by rewrite <- list_fmap_compose.
Qed.

Lemma run_experiment_logs_one_experiment_sample :
  ∃ accuracy confusion_matrix,
    accuracy_of Sample.env (Py.VBool false) (Py.VInt 2) = Some accuracy ∧
    confusion_matrix_of Sample.env (Py.VBool false) (Py.VInt 2)
      = Some confusion_matrix ∧
    let e := fresh_id ∅ in
    let r := Rubicon.run fresh_id
               (run_experiment Sample.env project (Py.VBool false) (Py.VInt 2))
               ∅ in
    r.1.1 = Some tt ∧
    (e ∉ dom (∅ : gmap nat Experiment)) ∧
    dom r.1.2 = {[ e ]} ∪ dom (∅ : gmap nat Experiment) ∧
    size r.1.2 = S (size (∅ : gmap nat Experiment)) ∧
    (∀ e', e' ≠ e → r.1.2 !! e' = (∅ : gmap nat Experiment) !! e') ∧
    (∃ x tag,
       r.1.2 !! e = Some x ∧
       project_name x = name project ∧
       parameters x = [("is_standardized", Py.VBool false);
                       ("n_components", Py.VInt 2)] ∧
       features x = feature_names (wine Sample.env) ∧
       length (features x) = length (feature_names (wine Sample.env)) ∧
       metrics x = [("accuracy", accuracy)] ∧
       dataframes x = [(confusion_matrix, ["confusion matrix"])] ∧
       tags x = {[ tag ]} ∧
       tag = verdict accuracy ∧
       (tag = "success" ∨ tag = "failure") ∧
       r.2 =
         [ Created e (name project) "GaussianNB";
           Called e (LogParameter "is_standardized" (Py.VBool false));
           Called e (LogParameter "n_components" (Py.VInt 2)) ]
         ++ ((λ k, Called e (LogFeature k)) <$> feature_names (wine Sample.env))
         ++ [ Called e (LogMetric "accuracy" accuracy);
              Called e (LogDataframe confusion_matrix ["confusion matrix"]);
              Called e (AddTags [tag]) ]).
Proof.
  eexists _, _.
  split; [vm_compute; reflexivity |]. split; [vm_compute; reflexivity |].
  apply (run_experiment_logs_one_experiment Sample.env project
           (Py.VBool false) (Py.VInt 2) ∅).
  - vm_compute. reflexivity.
  - vm_compute. reflexivity.
Defined.

(** ** The processes running side by side *)

Lemma run_experiment_keeps_to_own (env : Env) (pr : Project)
    (is_standardized n_components : Py.value) :
  keeps_to_own (name pr) (run_experiment env pr is_standardized n_components).
Proof.
  destruct (run_experiment_shape env pr is_standardized n_components)
    as (k & -> & Hk).
  split; [done |]. intros e. apply Hk.
Qed.

Lemma worker_keeps_to_own (env : Env) (pr : Project) (p : Process) :
  args p = [pr] → keeps_to_own (name pr) (worker env p).
Proof.
  intros Hargs. unfold worker, call_target. rewrite Hargs.
  case_decide; [apply run_experiment_keeps_to_own | done].
Qed.

Lemma run_experiment_begins_with (env : Env) (pr : Project)
    (is_standardized n_components : Py.value) :
  begins_with (name pr) "GaussianNB" (script env is_standardized n_components)
    (run_experiment env pr is_standardized n_components).
Proof.
  destruct (run_experiment_shape env pr is_standardized n_components)
    as (k & -> & Hk).
  split; [done |]. split; [done |]. intros e.
  by destruct (Hk e) as (? & ? & _).
Qed.

Lemma worker_begins_with (env : Env) (pr : Project) (p : Process) :
  args p = [pr] →
  dom (kwargs p) = {[ "is_standardized"; "n_components" ]} →
  begins_with (name pr) (script_of env p).1 (script_of env p).2 (worker env p).
Proof.
  intros Hargs Hdom. unfold worker, call_target. rewrite Hargs.
  rewrite decide_True by (by rewrite Hdom).
  apply run_experiment_begins_with.
Qed.

Lemma events_of_snoc (i j : nat) (ev : event) (l : list (nat * event)) :
  events_of i (l ++ [(j, ev)]) =
    if decide (j = i) then events_of i l ++ [ev] else events_of i l.
Proof.
  unfold events_of. rewrite filter_app, fmap_app.
  case_decide as Hij.
  - by rewrite filter_cons_True.
  - rewrite filter_cons_False by done. by rewrite app_nil_r.
Qed.

Lemma elem_of_events_of (i : nat) (ev : event) (l : list (nat * event)) :
  ev ∈ events_of i l ↔ (i, ev) ∈ l.
Proof.
  unfold events_of. rewrite list_elem_of_fmap. split.
  - intros ([j ev'] & -> & [Hj Hin]%list_elem_of_filter). by simplify_eq/=.
  - intros Hin. exists (i, ev). split; [done |].
    by apply list_elem_of_filter.
Qed.

Section Pool.

Context (new_id : gmap nat Experiment → nat).
Hypothesis new_id_fresh : ∀ s, s !! (new_id s) = None.
Context (project : string) (s0 : gmap nat Experiment).

(** A first call: the program logs its experiment. *)
Lemma apart_log_experiment (w : world) (i : nat) (m : string)
    (k : nat → prog unit) :
  apart project s0 w →
  pool w !! i = Some (LogExperimentK project m k) →
  events_of i (journal w) = [] →
  (∀ e, confined e (k e)) →
  apart project s0
    {| pool := <[i := k (new_id (store w))]> (pool w);
       store := <[new_id (store w) := new_experiment project m]> (store w);
       journal := journal w ++ [(i, Created (new_id (store w)) project m)] |}.
Proof.
  intros [Hkeeps Hknown Howner Hpool Hphase] Hi Hnone Hk.
  set (e := new_id (store w)).
  assert (Hfresh : store w !! e = None) by apply new_id_fresh.
  assert (Hnew : ∀ j ev, (j, ev) ∈ journal w → subject ev ≠ e).
  { intros j ev Hin Heq. destruct (Hknown j ev Hin) as [[x Hx] _].
    rewrite Heq in Hx. by rewrite Hfresh in Hx. }
  split; cbn [pool store journal].
  - intros e' x Hx. rewrite lookup_insert_ne; [by apply Hkeeps |].
    intros <-. apply Hkeeps in Hx. by rewrite Hfresh in Hx.
  - intros j ev [Hin | Hin%list_elem_of_singleton]%elem_of_app.
    + destruct (Hknown j ev Hin) as [Hs Hs0]. split; [| done].
      apply lookup_insert_is_Some'. by right.
    + simplify_eq/=. split; [apply lookup_insert_is_Some'; by left |].
      destruct (s0 !! e) as [x |] eqn:Hs0; [| done].
      apply Hkeeps in Hs0. by rewrite Hfresh in Hs0.
  - intros j j' ev ev' [Hin | Hin%list_elem_of_singleton]%elem_of_app
      [Hin' | Hin'%list_elem_of_singleton]%elem_of_app Heq.
    + by eapply Howner.
    + simplify_eq/=. by destruct (Hnew j ev Hin).
    + simplify_eq/=. by destruct (Hnew j' ev' Hin').
    + by simplify_eq.
  - intros j Hj. rewrite events_of_snoc. case_decide as Hij.
    + subst j. apply lookup_lt_Some in Hi.
      rewrite list_lookup_insert_eq in Hj; done.
    + rewrite list_lookup_insert_ne in Hj by done. by apply Hpool.
  - intros j p Hj. rewrite events_of_snoc. case_decide as Hij.
    + subst j. apply lookup_lt_Some in Hi.
      rewrite list_lookup_insert_eq in Hj by done. simplify_eq.
      right. exists e, m, []. rewrite Hnone.
      split; [done |]. split; [apply lookup_insert_eq | apply Hk].
    + rewrite list_lookup_insert_ne in Hj by done.
      destruct (Hphase j p Hj) as [? | (e' & m' & cs & Hmine & Hheld & Hconf)];
        [by left |].
      right. exists e', m', cs. split; [done |]. split; [| done].
      rewrite lookup_insert_ne; [done |].
      intros <-. by rewrite Hfresh in Hheld.
Qed.

(** A later call: the program writes to the experiment it logged. *)
Lemma apart_call (w : world) (i e : nat) (c : op) (m : string) (cs : list op)
    (k : prog unit) :
  apart project s0 w →
  pool w !! i = Some (CallK e c k) →
  events_of i (journal w) = Created e project m :: (Called e <$> cs) →
  store w !! e = Some (replay (new_experiment project m) cs) →
  confined e k →
  apart project s0
    {| pool := <[i := k]> (pool w);
       store := alter (apply_op c) e (store w);
       journal := journal w ++ [(i, Called e c)] |}.
Proof.
  intros [Hkeeps Hknown Howner Hpool Hphase] Hi Hmine Hheld Hk.
  assert (Hcreated : (i, Created e project m) ∈ journal w).
  { apply elem_of_events_of. rewrite Hmine. apply list_elem_of_here. }
  split; cbn [pool store journal].
  - intros e' x Hx. rewrite lookup_alter_ne; [by apply Hkeeps |].
    intros <-. destruct (Hknown i _ Hcreated) as [_ Hs0]. cbn in Hs0.
    by rewrite Hs0 in Hx.
  - intros j ev [Hin | Hin%list_elem_of_singleton]%elem_of_app.
    + destruct (Hknown j ev Hin) as [Hs Hs0]. split; [| done].
      by apply lookup_alter_is_Some.
    + simplify_eq/=. destruct (Hknown i _ Hcreated) as [Hs Hs0].
      split; [by apply lookup_alter_is_Some | done].
  - intros j j' ev ev' [Hin | Hin%list_elem_of_singleton]%elem_of_app
      [Hin' | Hin'%list_elem_of_singleton]%elem_of_app Heq.
    + by eapply Howner.
    + simplify_eq/=. symmetry. by eapply (Howner i j _ ev Hcreated Hin).
    + simplify_eq/=. by eapply (Howner i j' _ ev' Hcreated Hin').
    + by simplify_eq.
  - intros j Hj. rewrite events_of_snoc. case_decide as Hij.
    + subst j. apply lookup_lt_Some in Hi.
      rewrite list_lookup_insert_eq in Hj; done.
    + rewrite list_lookup_insert_ne in Hj by done. by apply Hpool.
  - intros j p Hj. rewrite events_of_snoc. case_decide as Hij.
    + subst j. apply lookup_lt_Some in Hi.
      rewrite list_lookup_insert_eq in Hj by done. simplify_eq.
      right. exists e, m, (cs ++ [c]).
      rewrite Hmine, fmap_app. split; [done |]. split; [| apply Hk].
      rewrite lookup_alter_eq, Hheld. unfold replay. by rewrite foldl_snoc.
    + rewrite list_lookup_insert_ne in Hj by done.
      destruct (Hphase j p Hj) as [? | (e' & m' & cs' & Hmine' & Hheld' & Hconf)];
        [by left |].
      right. exists e', m', cs'. split; [done |]. split; [| done].
      rewrite lookup_alter_ne; [done |].
      intros <-. apply Hij.
      apply (Howner i j (Created e project m) (Created e project m')); [done | | done].
      apply elem_of_events_of. rewrite Hmine'. apply list_elem_of_here.
Qed.

Lemma apart_step (w : world) (i : nat) :
  apart project s0 w → apart project s0 (pool_step new_id w i).
Proof.
  intros Hw. unfold pool_step.
  destruct (pool w !! i) as [[a | | pr m k | e c k] |] eqn:Hi; cbn [step];
    [done | done | | | done].
  - destruct (apart_phase _ _ _ Hw i _ Hi) as [[Hnone [-> Hk]] | (e & m' & cs & _ & _ & [])].
    by apply apart_log_experiment.
  - destruct (apart_phase _ _ _ Hw i _ Hi)
      as [[_ []] | (e' & m & cs & Hmine & Hheld & [-> Hk])].
    by eapply apart_call.
Qed.

Lemma apart_run (w : world) (schedule : list nat) :
  apart project s0 w → apart project s0 (pool_run new_id w schedule).
Proof.
  revert w. induction schedule as [| i schedule IH]; intros w Hw; [done |].
  apply IH. by apply apart_step.
Qed.

Lemma apart_start (ps : list (prog unit)) :
  Forall (keeps_to_own project) ps →
  apart project s0 {| pool := ps; store := s0; journal := [] |}.
Proof.
  intros Hps. split; cbn [pool store journal].
  - done.
  - intros i ev Hin. by apply elem_of_nil in Hin.
  - intros i j ev ev' Hin. by apply elem_of_nil in Hin.
  - done.
  - intros i p Hi. left. split; [done |].
    by eapply (proj1 (Forall_lookup _ _) Hps).
Qed.

End Pool.

Lemma pool_run_length (new_id : gmap nat Experiment → nat) (w : world)
    (schedule : list nat) :
  length (pool (pool_run new_id w schedule)) = length (pool w).
Proof.
  revert w. induction schedule as [| i schedule IH]; intros w; [done |].
  change (pool_run new_id w (i :: schedule))
    with (pool_run new_id (pool_step new_id w i) schedule).
  rewrite IH. unfold pool_step.
  destruct (pool w !! i) as [p |]; [| done].
  destruct (step new_id p (store w)) as [[[ev p'] s'] |]; [| done].
  apply length_insert.
Qed.

Lemma sample_new_id_fresh (s : gmap nat Experiment) :
  s !! (Sample.new_id s) = None.
Proof. apply not_elem_of_dom. unfold Sample.new_id. apply is_fresh. Qed.

(** ** The pool keeps to the scripts *)

Section Scripts.

Context (new_id : gmap nat Experiment → nat).
Context (project : string) (scripts : list (string * list op)).

Lemma on_script_step (w : world) (i : nat) :
  on_script project scripts w → on_script project scripts (pool_step new_id w i).
Proof.
  intros [Hlen Hw]. unfold pool_step.
  destruct (pool w !! i) as [[a | | pr m k | e c k] |] eqn:Hi; cbn [step];
    [done | done | | | done].
  - split; cbn [pool journal]; [by rewrite length_insert |].
    intros j p model ops Hj Hs. rewrite events_of_snoc. case_decide as Hij.
    + subst j. pose proof (lookup_lt_Some _ _ _ Hi) as Hlt.
      rewrite list_lookup_insert_eq in Hj by done. simplify_eq.
      destruct (Hw i _ model ops Hi Hs)
        as [[Hnone (-> & -> & Hk)] | (e & cs & _ & [] & _)].
      right. exists (new_id (store w)), []. rewrite Hnone.
      destruct (Hk (new_id (store w))) as [Hconf Hops]. by repeat split.
    + rewrite list_lookup_insert_ne in Hj by done. by apply Hw.
  - split; cbn [pool journal]; [by rewrite length_insert |].
    intros j p model ops Hj Hs. rewrite events_of_snoc. case_decide as Hij.
    + subst j. pose proof (lookup_lt_Some _ _ _ Hi) as Hlt.
      rewrite list_lookup_insert_eq in Hj by done. simplify_eq.
      destruct (Hw i _ model ops Hi Hs)
        as [[_ []] | (e' & cs & Hmine & [-> Hk] & Hops)].
      right. exists e', (cs ++ [c]). rewrite Hmine, fmap_app.
      split; [done |]. split; [done |].
      by rewrite <- app_assoc.
    + rewrite list_lookup_insert_ne in Hj by done. by apply Hw.
Qed.

Lemma on_script_run (w : world) (schedule : list nat) :
  on_script project scripts w →
  on_script project scripts (pool_run new_id w schedule).
Proof.
  revert w. induction schedule as [| i schedule IH]; intros w Hw; [done |].
  apply IH. by apply on_script_step.
Qed.

Lemma accounted_step (s0 : gmap nat Experiment) (w : world) (i : nat) :
  apart project s0 w → accounted s0 w → accounted s0 (pool_step new_id w i).
Proof.
  intros Hw Hacc. unfold accounted in *. unfold pool_step.
  destruct (pool w !! i) as [[a | | pr m k | e c k] |] eqn:Hi; cbn [step];
    [done | done | | | done]; cbn [store journal].
  - rewrite dom_insert_L, Hacc, !fmap_app, list_to_set_app_L. cbn.
    rewrite (right_id_L ∅ (∪)). apply set_eq. intros x.
    rewrite !elem_of_union, elem_of_singleton. tauto.
  - rewrite dom_alter_L, Hacc, !fmap_app, list_to_set_app_L. cbn.
    rewrite (right_id_L ∅ (∪)).
    destruct (apart_phase _ _ _ Hw i _ Hi)
      as [[_ []] | (e' & m & cs & Hmine & _ & [-> _])].
    assert (Hin : e' ∈ (list_to_set (subject <$> (journal w).*2) : gset nat)).
    { apply elem_of_list_to_set, list_elem_of_fmap.
      exists (Created e' project m). split; [done |].
      apply list_elem_of_fmap. exists (i, Created e' project m).
      split; [done |]. apply elem_of_events_of. rewrite Hmine.
      apply list_elem_of_here. }
    apply set_eq. intros x.
    rewrite !elem_of_union, elem_of_singleton. split; [tauto |].
    intros [Hx | [Hx | ->]]; tauto.
Qed.

End Scripts.

Lemma pool_step_length (new_id : gmap nat Experiment → nat) (w : world)
    (i : nat) :
  length (pool (pool_step new_id w i)) = length (pool w).
Proof.
  unfold pool_step. destruct (pool w !! i) as [p |]; [| done].
  destruct (step new_id p (store w)) as [[[ev p'] s'] |]; [| done].
  apply length_insert.
Qed.

(** ** Who has had a turn has logged its experiment *)

Section Moved.

Context (new_id : gmap nat Experiment → nat).
Context (project : string) (scripts : list (string * list op)).

Lemma pool_step_other (w : world) (i j : nat) :
  i ≠ j →
  events_of j (journal (pool_step new_id w i)) = events_of j (journal w).
Proof.
  intros Hij. unfold pool_step. destruct (pool w !! i) as [p |]; [| done].
  destruct (step new_id p (store w)) as [[[ev p'] s'] |]; [| done].
  cbn [journal]. by rewrite events_of_snoc, decide_False.
Qed.

(** The first turn of a program is the logging of its experiment. *)
Lemma pool_step_moved (w : world) (i : nat) :
  on_script project scripts w → (i < length (pool w))%nat →
  events_of i (journal (pool_step new_id w i)) ≠ [].
Proof.
  intros [Hlen Hw] Hi.
  destruct (lookup_lt_is_Some_2 _ _ Hi) as [p Hp].
  rewrite Hlen in Hi. destruct (lookup_lt_is_Some_2 _ _ Hi) as [[model ops] Hs].
  unfold pool_step. rewrite Hp.
  destruct (Hw i p model ops Hp Hs) as [[_ Hb] | (e & cs & Hmine & _)].
  - destruct p as [a | | pr m k | e c k]; try done.
    cbn [step journal]. rewrite events_of_snoc, decide_True by done.
    by destruct (events_of i (journal w)).
  - destruct (step new_id p (store w)) as [[[ev p'] s'] |];
      [| by rewrite Hmine].
    cbn [journal]. rewrite events_of_snoc, decide_True, Hmine by done. done.
Qed.

Lemma pool_run_moved (w : world) (schedule : list nat) (i : nat) :
  on_script project scripts w → (i < length (pool w))%nat →
  events_of i (journal (pool_run new_id w schedule)) ≠ []
  ↔ i ∈ schedule ∨ events_of i (journal w) ≠ [].
Proof.
  revert w. induction schedule as [| j schedule IH]; intros w Hw Hi.
  { cbn. rewrite elem_of_nil. tauto. }
  change (pool_run new_id w (j :: schedule))
    with (pool_run new_id (pool_step new_id w j) schedule).
  rewrite IH; [| by apply on_script_step | by rewrite pool_step_length].
  rewrite elem_of_cons. destruct (decide (j = i)) as [-> | Hji].
  - pose proof (pool_step_moved w i Hw Hi). tauto.
  - rewrite pool_step_other by done. split; [tauto |].
    intros [[? | ?] | ?]; [congruence | tauto | tauto].
Qed.

End Moved.

Lemma called_fmap_inj (e e' : nat) (cs cs' : list op) :
  Called e <$> cs = Called e' <$> cs' → cs = cs'.
Proof.
  revert cs'. induction cs as [| c cs IH]; intros [| c' cs'] Heq;
    simplify_eq/=; [done |]. f_equal. by apply IH.
Qed.

Lemma boot_scripts (env : Env) (pr : Project) (processes : list Process)
    (s0 : gmap nat Experiment) :
  Forall (λ p, args p = [pr] ∧
               dom (kwargs p) = {[ "is_standardized"; "n_components" ]})
         processes →
  on_script (name pr) (script_of env <$> processes)
    {| pool := worker env <$> processes; store := s0; journal := [] |}.
Proof.
  intros Hps. split; cbn [pool journal]; [by rewrite !length_fmap |].
  intros i p model ops Hp Hs. left. split; [done |].
  apply list_lookup_fmap_Some in Hp as (q & -> & Hq).
  rewrite list_lookup_fmap, Hq in Hs. cbn in Hs.
  destruct (proj1 (Forall_lookup _ _) Hps i q Hq) as [Hargs Hdom].
  pose proof (worker_begins_with env pr q Hargs Hdom) as Hb.
  by injection Hs as <- <-.
Qed.

Lemma kwargs_both (p : Process) :
  dom (kwargs p) = {[ "is_standardized"; "n_components" ]} →
  ∃ b n, kwargs p !! "is_standardized" = Some b ∧
         kwargs p !! "n_components" = Some n.
Proof.
  intros Hdom.
  assert (His : is_Some (kwargs p !! "is_standardized")).
  { apply elem_of_dom. rewrite Hdom. apply elem_of_union_l.
    by apply elem_of_singleton. }
  assert (Hn : is_Some (kwargs p !! "n_components")).
  { apply elem_of_dom. rewrite Hdom. apply elem_of_union_r.
    by apply elem_of_singleton. }
  destruct His as [b Hb], Hn as [n Hn]. by exists b, n.
Qed.

(** C5: however the 14 processes take turns on the shared store, all of them
    log to the one project.  A process that has had a turn has logged one
    experiment of its own, which was not there before, and since then has
    made on that experiment, and on no other, the first calls of a run of
    its configuration, the rest of them being what its code has yet to do;
    the experiment holds what these calls wrote and nothing else.  A process
    that has had no turn has called nothing.  No experiment is touched by
    two processes, and what the project held before is left as it was.  This
    rests on the client giving a new experiment an identifier that is not in
    use. *)
Theorem processes_write_apart
    (new_id : gmap nat Experiment → nat) (env : Env) (pr : Project)
    (s0 : gmap nat Experiment) (schedule : list nat) :
  (∀ s, s !! (new_id s) = None) →
  ∃ processes,
    build_processes pr = Some processes ∧
    let w := pool_run new_id
               {| pool := worker env <$> processes; store := s0; journal := [] |}
               schedule in
    length (pool w) = 14%nat ∧
    (∀ i, (14 ≤ i)%nat → events_of i (journal w) = []) ∧
    (∀ i p, processes !! i = Some p →
       ∃ b n, config p = (Some b, Some n) ∧
         (((i ∉ schedule) ∧ events_of i (journal w) = []) ∨
          (i ∈ schedule ∧
           ∃ e cs q,
             events_of i (journal w)
               = Created e (name pr) "GaussianNB" :: (Called e <$> cs) ∧
             s0 !! e = None ∧
             store w !! e
               = Some (replay (new_experiment (name pr) "GaussianNB") cs) ∧
             pool w !! i = Some q ∧
             confined e q ∧
             cs ++ ops_of q = script env b n))) ∧
    (∀ i, events_of i (journal w) = [] ∨
          ∃ e m cs,
            events_of i (journal w) = Created e (name pr) m :: (Called e <$> cs) ∧
            s0 !! e = None ∧
            store w !! e = Some (replay (new_experiment (name pr) m) cs)) ∧
    (∀ i j ev ev', (i, ev) ∈ journal w → (j, ev') ∈ journal w →
                   subject ev = subject ev' → i = j) ∧
    (∀ e x, s0 !! e = Some x → store w !! e = Some x).
Proof.
  intros Hfresh.
  destruct (build_processes_configs pr) as (ps & Hps & Hcfg & Hargs).
  exists ps. split; [done |]. cbv zeta.
  set (w0 := {| pool := worker env <$> ps; store := s0; journal := [] |}).
  assert (Hlen0 : length (pool w0) = 14%nat).
  { cbn. rewrite length_fmap. by rewrite <- (length_fmap config), Hcfg. }
  assert (Hlen : length (pool (pool_run new_id w0 schedule)) = 14%nat)
    by (by rewrite pool_run_length).
  assert (Hw : apart (name pr) s0 (pool_run new_id w0 schedule)).
  { apply apart_run; [done |]. apply apart_start.
    apply Forall_fmap. eapply Forall_impl; [apply Hargs |].
    intros p [Hp _]. by apply worker_keeps_to_own. }
  pose proof (boot_scripts env pr ps s0 Hargs) as Hs0. fold w0 in Hs0.
  pose proof (on_script_run new_id _ _ w0 schedule Hs0) as [_ Hscript].
  destruct Hw as [Hkeeps Hknown Howner Hpool Hphase].
  split; [done |].
  split; [intros i Hi; apply Hpool, lookup_ge_None; lia |].
  split; [| split; [| by split]].
  - intros i p Hp.
    destruct (proj1 (Forall_lookup _ _) Hargs i p Hp) as [_ Hkw].
    destruct (kwargs_both p Hkw) as (b & n & Hb & Hn).
    exists b, n. split; [unfold config; by rewrite Hb, Hn |].
    assert (Hi : (i < length (pool w0))%nat).
    { pose proof (lookup_lt_Some _ _ _ Hp) as Hlt.
      cbn. by rewrite length_fmap. }
    pose proof (pool_run_moved new_id _ _ w0 schedule i Hs0 Hi) as Hmoved.
    cbn [journal w0] in Hmoved.
    destruct (lookup_lt_is_Some_2 (pool (pool_run new_id w0 schedule)) i)
      as [q Hq]; [by rewrite pool_run_length |].
    assert (Hsi : (script_of env <$> ps) !! i
                  = Some ("GaussianNB", script env b n)).
    { rewrite list_lookup_fmap, Hp.
      change (script_of env <$> Some p) with (Some (script_of env p)).
      unfold script_of. by rewrite Hb, Hn. }
    destruct (Hscript i q _ _ Hq Hsi)
      as [[Hnone _] | (e & cs & Hmine & Hconf & Hops)].
    + left. split; [| done]. intros Hin. apply Hmoved; [by left | done].
    + right. split.
      { destruct (decide (i ∈ schedule)) as [? | Hout]; [done |].
        assert (events_of i (journal (pool_run new_id w0 schedule)) ≠ [])
          as Hne by (by rewrite Hmine).
        apply Hmoved in Hne as [? | Hne]; done. }
      exists e, cs, q. split; [done |].
      destruct (Hphase i q Hq)
        as [[Hnone _] | (e' & m & cs' & Hmine' & Hheld & _)];
        [by rewrite Hnone in Hmine |].
      rewrite Hmine in Hmine'. injection Hmine' as -> <- Hcs.
      apply called_fmap_inj in Hcs as <-.
      split; [| by repeat split].
      apply (Hknown i (Created e' (name pr) "GaussianNB")).
      apply elem_of_events_of. rewrite Hmine. apply list_elem_of_here.
  - intros i.
    destruct (pool (pool_run new_id w0 schedule) !! i) as [p |] eqn:Hi;
      [| left; by apply Hpool].
    destruct (Hphase i p Hi) as [[Hnone _] | (e & m & cs & Hmine & Hheld & _)];
      [by left |].
    right. exists e, m, cs. split; [done |]. split; [| done].
    apply (Hknown i (Created e (name pr) m)).
    apply elem_of_events_of. rewrite Hmine. apply list_elem_of_here.
Qed.

Lemma processes_write_apart_sample :
  ∃ processes,
    build_processes project = Some processes ∧
    let w := pool_run Sample.new_id
               {| pool := worker Sample.env <$> processes; store := ∅;
                  journal := [] |}
               [0; 13; 0; 5; 13; 0; 0; 2]%nat in
    length (pool w) = 14%nat ∧
    (∀ i, (14 ≤ i)%nat → events_of i (journal w) = []) ∧
    (∀ i p, processes !! i = Some p →
       ∃ b n, config p = (Some b, Some n) ∧
         (((i ∉ [0; 13; 0; 5; 13; 0; 0; 2]%nat)
           ∧ events_of i (journal w) = []) ∨
          (i ∈ [0; 13; 0; 5; 13; 0; 0; 2]%nat ∧
           ∃ e cs q,
             events_of i (journal w)
               = Created e (name project) "GaussianNB" :: (Called e <$> cs) ∧
             (∅ : gmap nat Experiment) !! e = None ∧
             store w !! e
               = Some (replay (new_experiment (name project) "GaussianNB") cs) ∧
             pool w !! i = Some q ∧
             confined e q ∧
             cs ++ ops_of q = script Sample.env b n))) ∧
    (∀ i, events_of i (journal w) = [] ∨
          ∃ e m cs,
            events_of i (journal w) =
              Created e (name project) m :: (Called e <$> cs) ∧
            (∅ : gmap nat Experiment) !! e = None ∧
            store w !! e = Some (replay (new_experiment (name project) m) cs)) ∧
    (∀ i j ev ev', (i, ev) ∈ journal w → (j, ev') ∈ journal w →
                   subject ev = subject ev' → i = j) ∧
    (∀ e x, (∅ : gmap nat Experiment) !! e = Some x → store w !! e = Some x).
Proof.
  apply (processes_write_apart Sample.new_id Sample.env project ∅
           [0; 13; 0; 5; 13; 0; 0; 2]%nat).
  apply sample_new_id_fresh.
Defined.

(** ** The published catalog *)

(** C6: the publishing cell writes one file, the catalog, at
    "./wine_catalog.yml" and leaves every other file alone; the consuming
    cell opens that very path and so reads what was published. *)
Theorem published_catalog_is_the_one_consumed
    (catalog_yaml : gmap nat Experiment → string → list string → string)
    (experiments : gmap nat Experiment) (files : Files) :
  let files' := publish_cell catalog_yaml experiments files in
  files' =
    publish catalog_yaml experiments "Wine Classification" ["success"]
      "./wine_catalog.yml" files ∧
  dom files' = {[ "./wine_catalog.yml" ]} ∪ dom files ∧
  (∀ path, path ≠ "./wine_catalog.yml" → files' !! path = files !! path) ∧
  consume_cell files' =
    Some (catalog_yaml experiments "Wine Classification" ["success"]) ∧
  consume_cell files' = open_catalog "./wine_catalog.yml" files'.
Proof.
  cbv zeta. unfold publish_cell, consume_cell, publish, open_catalog.
  split; [done |]. split; [apply dom_insert_L |].
  split; [intros path Hne; by apply lookup_insert_ne |].
  split; [apply lookup_insert_eq | done].
Qed.

(** ** The clients' configuration *)

(** C9: each [Rubicon(...)] call of the notebooks passes "filesystem" or
    "memory" as [persistence]; where it passes [root_dir], that is a local
    path or an [s3://] URI; where it passes [auto_git_enabled], that is a
    bool; and it passes nothing else. *)
Theorem instantiations_within_surface :
  Forall (λ kw : Kwargs,
    (kw !! "persistence" = Some (Py.VStr "filesystem") ∨
     kw !! "persistence" = Some (Py.VStr "memory")) ∧
    (∀ v, kw !! "root_dir" = Some v →
          ∃ s, v = Py.VStr s ∧
               (Config.is_local_path s = true ∨ Config.is_s3_uri s = true)) ∧
    (∀ v, kw !! "auto_git_enabled" = Some v → ∃ b, v = Py.VBool b) ∧
    dom kw ⊆ {[ "persistence"; "root_dir"; "auto_git_enabled" ]})
    Config.instantiations.
Proof.
  unfold Config.instantiations, QuickLook.rubicon, rubicon_in_text, rubicon_s3,
    GitIntegration.rubicon.
  repeat apply Forall_cons_2; [.. | apply Forall_nil_2].
  all: split; [ rewrite lookup_insert_eq; by auto |].
  all: split; [ intros v; rewrite lookup_insert_ne by done;
                rewrite ?lookup_singleton_eq, ?lookup_singleton_ne by done;
                intros Hv; simplify_eq;
                try (eexists; split; [done |]; vm_compute; by auto) |].
  all: split; [ intros v; rewrite lookup_insert_ne by done;
                rewrite ?lookup_singleton_eq, ?lookup_singleton_ne by done;
                intros Hv; simplify_eq; try by eexists |].
  all: apply (bool_decide_unpack _); by vm_compute.
Qed.


(** ** The parent next to its processes *)

Lemma start_then_join_length (processes : list Process) :
  length (start_then_join processes) = (2 * length processes)%nat.
Proof. unfold start_then_join. rewrite length_app, !length_imap. lia. Qed.

Section Barrier.

Context (new_id : gmap nat Experiment → nat).

(** A process that has come to its end stays there. *)
Lemma pool_step_ended (w : world) (i j : nat) (q : prog unit) :
  pool w !! j = Some q → ended q = true →
  pool (pool_step new_id w i) !! j = Some q.
Proof.
  intros Hj Hq. unfold pool_step.
  destruct (pool w !! i) as [p |] eqn:Hi; [| done].
  destruct (decide (i = j)) as [-> | Hij].
  - simplify_eq. by destruct q.
  - destruct (step new_id p (store w)) as [[[ev p'] s'] |]; [| done].
    cbn [pool]. by rewrite list_lookup_insert_ne.
Qed.

Lemma shared_preserved (P : world → Prop) :
  (∀ w i, P w → P (pool_step new_id w i)) →
  ∀ turns σ, P (shared σ) → P (shared (system_run new_id σ turns)).
Proof.
  intros Hstep turns. induction turns as [| t turns IH]; intros σ Hσ; [done |].
  apply IH. destruct t as [| i]; cbn [system_step].
  - unfold parent_step. destruct (raised σ); [done |].
    destruct (todo σ) as [| [j | j] rest]; [done | |].
    + by case_bool_decide.
    + case_bool_decide; [| done]. by destruct (has_exited σ j).
  - case_bool_decide; [| done]. by apply Hstep.
Qed.

Context (processes : list Process).

Lemma in_step_parent (σ : system) :
  in_step processes σ → in_step processes (parent_step σ).
Proof.
  intros Hσ. pose proof Hσ as (Hraised & Hlen & k & Htodo & Hstarted & Hended).
  unfold parent_step. rewrite Hraised.
  destruct (start_then_join processes !! k) as [c |] eqn:Hk.
  - rewrite (drop_S _ _ _ Hk) in Htodo. rewrite Htodo.
    destruct c as [j | j].
    + apply start_then_join_start in Hk as [-> Hj].
      rewrite bool_decide_eq_false_2 by (rewrite Hstarted; lia).
      split; [done |]. split; [done |]. exists (S j). cbn [todo started shared].
      split; [done |]. split; [| intros i Hi; lia].
      intros i. rewrite elem_of_union, elem_of_singleton, Hstarted. lia.
    + apply start_then_join_join in Hk as [-> Hj].
      rewrite bool_decide_eq_true_2 by (rewrite Hstarted; lia).
      destruct (has_exited σ j) eqn:Hex.
      * split; [done |]. split; [done |]. exists (S (length processes + j)).
        cbn [todo started shared]. split; [done |]. split.
        { intros i. rewrite Hstarted. lia. }
        intros i Hi. destruct (decide (i = j)) as [-> | Hij];
          [| apply Hended; lia].
        unfold has_exited in Hex. apply andb_prop in Hex as [_ Hex].
        destruct (pool (shared σ) !! j) as [q |]; [by exists q | done].
      * done.
  - rewrite (drop_ge _ k) in Htodo by (by apply lookup_ge_None).
    by rewrite Htodo.
Qed.

Lemma in_step_step (σ : system) (t : turn) :
  in_step processes σ → in_step processes (system_step new_id σ t).
Proof.
  destruct t as [| i]; [apply in_step_parent |].
  intros Hσ. cbn [system_step]. case_bool_decide; [| done].
  destruct Hσ as (Hraised & Hlen & k & Htodo & Hstarted & Hended).
  split; [done |]. split; [cbn; by rewrite pool_step_length |].
  exists k. cbn [todo started shared]. split; [done |]. split; [done |].
  intros j Hj. destruct (Hended j Hj) as (q & Hq & Hend).
  exists q. split; [by apply pool_step_ended | done].
Qed.

Lemma in_step_run (σ : system) (turns : list turn) :
  in_step processes σ → in_step processes (system_run new_id σ turns).
Proof.
  revert σ. induction turns as [| t turns IH]; intros σ Hσ; [done |].
  apply IH. by apply in_step_step.
Qed.

Lemma in_step_boot (env : Env) (s0 : gmap nat Experiment) :
  in_step processes (boot env processes s0).
Proof.
  split; [done |]. split; [cbn; by rewrite length_fmap |].
  exists 0%nat. cbn [todo started shared boot]. split; [done |].
  split; [| intros i Hi; lia].
  intros i. rewrite elem_of_empty. lia.
Qed.

(** With no call left to make, the parent has seen every process end. *)
Lemma in_step_done (σ : system) (i : nat) :
  in_step processes σ → todo σ = [] → (i < length processes)%nat →
  i ∈ started σ ∧ ∃ q, pool (shared σ) !! i = Some q ∧ ended q = true.
Proof.
  intros (Hraised & Hlen & k & Htodo & Hstarted & Hended) Hnil Hi.
  assert (Hk : (2 * length processes ≤ k)%nat).
  { rewrite Hnil in Htodo. apply (f_equal length) in Htodo.
    rewrite length_drop, start_then_join_length in Htodo. cbn in Htodo. lia. }
  split; [apply Hstarted; lia | apply Hended; lia].
Qed.

End Barrier.


(** ** What the pool has done once every process has ended *)

Section Ended.

Context (project : string) (s0 : gmap nat Experiment).
Context (scripts : list (string * list op)) (w : world).
Hypothesis Hapart : apart project s0 w.
Hypothesis Hscript : on_script project scripts w.

(** A process that has ended has made the calls of its script, all of them
    and in order, on an experiment of its own that holds just these. *)
Lemma ended_worker (i : nat) (q : prog unit) (model : string) (ops : list op) :
  pool w !! i = Some q → ended q = true →
  scripts !! i = Some (model, ops) →
  ∃ e, events_of i (journal w) = Created e project model :: (Called e <$> ops) ∧
       experiment_of i (journal w) = Some e ∧
       s0 !! e = None ∧
       store w !! e = Some (replay (new_experiment project model) ops).
Proof.
  intros Hi Hq Hs. destruct Hscript as [_ Hon].
  destruct (Hon i _ model ops Hi Hs) as [[_ Hb] | (e & cs & Hmine & _ & Hops)];
    [by destruct q |].
  assert (ops_of q = []) as Hrest by (by destruct q).
  rewrite Hrest, app_nil_r in Hops. subst cs.
  exists e. split; [done |].
  split; [unfold experiment_of; by rewrite Hmine |].
  destruct (apart_phase _ _ _ Hapart i _ Hi)
    as [[Hnone _] | (e' & m & cs' & Hmine' & Hheld & _)].
  { by rewrite Hnone in Hmine. }
  rewrite Hmine in Hmine'. injection Hmine' as -> -> Hcs.
  apply called_fmap_inj in Hcs as <-. split; [| done].
  apply (apart_known _ _ _ Hapart i (Created e' project m)).
  apply elem_of_events_of. rewrite Hmine. apply list_elem_of_here.
Qed.

Hypothesis Haccounted : accounted s0 w.
Hypothesis Hended : ∀ i, (i < length scripts)%nat →
  ∃ q, pool w !! i = Some q ∧ ended q = true.

Lemma ended_experiment (i : nat) :
  (i < length scripts)%nat →
  ∃ e, experiment_of i (journal w) = Some e ∧ s0 !! e = None ∧
       (∀ ev, (i, ev) ∈ journal w → subject ev = e) ∧
       ∃ ev, (i, ev) ∈ journal w ∧ subject ev = e.
Proof.
  intros Hi. destruct (lookup_lt_is_Some_2 scripts i Hi) as [[model ops] Hs].
  destruct (Hended i Hi) as (q & Hq & Hend).
  destruct (ended_worker i q model ops Hq Hend Hs) as (e & Hmine & He & Hs0 & _).
  exists e. split; [done |]. split; [done |]. split.
  - intros ev Hin. apply elem_of_events_of in Hin. rewrite Hmine in Hin.
    apply elem_of_cons in Hin as [-> | Hin]; [done |].
    by apply list_elem_of_fmap in Hin as (c & -> & _).
  - exists (Created e project model). split; [| done].
    apply elem_of_events_of. rewrite Hmine. apply list_elem_of_here.
Qed.

Lemma journal_within_pool (i : nat) (ev : event) :
  (i, ev) ∈ journal w → (i < length scripts)%nat.
Proof.
  intros Hin. destruct Hscript as [Hlen _]. rewrite <- Hlen.
  apply lookup_lt_is_Some. destruct (pool w !! i) eqn:Hi; [by eexists |].
  apply (apart_pool _ _ _ Hapart) in Hi.
  apply elem_of_events_of in Hin. rewrite Hi in Hin.
  by apply elem_of_nil in Hin.
Qed.

(** The experiments in the store are those of the start and one for each
    process, all different. *)
Lemma ended_store :
  (∀ e, e ∈ dom (store w) ↔
        e ∈ dom s0 ∨ ∃ i, (i < length scripts)%nat ∧
                          experiment_of i (journal w) = Some e) ∧
  (∀ i j e, experiment_of i (journal w) = Some e →
            experiment_of j (journal w) = Some e → i = j) ∧
  size (store w) = (size s0 + length scripts)%nat.
Proof.
  assert (Hinj : ∀ i j e, experiment_of i (journal w) = Some e →
                          experiment_of j (journal w) = Some e → i = j).
  { intros i j e Hi Hj. unfold experiment_of in Hi, Hj.
    destruct (events_of i (journal w)) as [| ev evs] eqn:Hei; [done |].
    destruct (events_of j (journal w)) as [| ev' evs'] eqn:Hej; [done |].
    simplify_eq/=. apply (apart_owner _ _ _ Hapart i j ev ev'); [| | done].
    - apply elem_of_events_of. rewrite Hei. apply list_elem_of_here.
    - apply elem_of_events_of. rewrite Hej. apply list_elem_of_here. }
  set (ids := (λ i, default 0%nat (experiment_of i (journal w)))
                <$> seq 0 (length scripts)).
  assert (Hids : ∀ e, e ∈ ids ↔ ∃ i, (i < length scripts)%nat ∧
                                     experiment_of i (journal w) = Some e).
  { intros e. unfold ids. rewrite list_elem_of_fmap. split.
    - intros (i & -> & Hi). apply elem_of_seq in Hi. exists i. split; [lia |].
      destruct (ended_experiment i) as (e & -> & _); [lia | done].
    - intros (i & Hi & He). exists i. rewrite He. split; [done |].
      apply elem_of_seq. lia. }
  assert (Hsubjects :
    (list_to_set (subject <$> (journal w).*2) : gset nat) = list_to_set ids).
  { apply set_eq. intros e. rewrite !elem_of_list_to_set, Hids.
    rewrite list_elem_of_fmap. split.
    - intros (ev & -> & Hev). apply list_elem_of_fmap in Hev as ([i ev'] & -> & Hin).
      pose proof (journal_within_pool i ev' Hin) as Hi.
      destruct (ended_experiment i Hi) as (e & He & _ & Hall & _).
      exists i. split; [done |]. cbn. by rewrite (Hall ev' Hin).
    - intros (i & Hi & He).
      destruct (ended_experiment i Hi) as (e' & He' & _ & _ & ev & Hin & Hev).
      rewrite He in He'. simplify_eq. exists ev. split; [done |].
      apply list_elem_of_fmap. by exists (i, ev). }
  assert (Hnodup : NoDup ids).
  { apply NoDup_fmap_2_strong; [| apply NoDup_seq].
    intros i j Hi Hj Heq. apply elem_of_seq in Hi, Hj.
    destruct (ended_experiment i) as (e & He & _); [lia |].
    destruct (ended_experiment j) as (e' & He' & _); [lia |].
    rewrite He, He' in Heq. cbn in Heq. subst e'. by eapply Hinj. }
  assert (Hdisjoint : dom s0 ## (list_to_set ids : gset nat)).
  { intros e Hs0 He. apply elem_of_list_to_set, Hids in He as (i & Hi & He).
    destruct (ended_experiment i Hi) as (e' & He' & Hnew & _).
    rewrite He in He'. simplify_eq. apply elem_of_dom in Hs0 as [x Hx].
    by rewrite Hnew in Hx. }
  unfold accounted in Haccounted. rewrite Hsubjects in Haccounted.
  split; [| split; [done |]].
  - intros e. by rewrite Haccounted, elem_of_union, elem_of_list_to_set, Hids.
  - rewrite <- !size_dom, Haccounted, size_union by done.
    rewrite size_list_to_set by done. unfold ids.
    by rewrite length_fmap, length_seq.
Qed.

End Ended.


(** ** The whole cell, whatever the order of the moves *)

Section Cell.

Context (new_id : gmap nat Experiment → nat) (env : Env) (pr : Project).
Context (processes : list Process) (s0 : gmap nat Experiment).

Lemma cell_invariants (turns : list turn) :
  (∀ s, s !! (new_id s) = None) →
  Forall (λ p, args p = [pr] ∧
               dom (kwargs p) = {[ "is_standardized"; "n_components" ]})
         processes →
  let σ := system_run new_id (boot env processes s0) turns in
  apart (name pr) s0 (shared σ) ∧
  on_script (name pr) (script_of env <$> processes) (shared σ) ∧
  accounted s0 (shared σ).
Proof.
  intros Hfresh Hps.
  apply (shared_preserved new_id
           (λ w, apart (name pr) s0 w ∧
                 on_script (name pr) (script_of env <$> processes) w ∧
                 accounted s0 w)).
  - intros w i (Ha & Hs & Hc). split; [by apply apart_step |].
    split; [by apply on_script_step | by eapply accounted_step].
  - cbn [boot shared]. split; [| split; [by apply boot_scripts |]].
    + apply apart_start. apply Forall_fmap. eapply Forall_impl; [apply Hps |].
      intros p [Hp _]. by apply worker_keeps_to_own.
    + unfold accounted. cbn. by rewrite (right_id_L ∅ (∪)).
Qed.

End Cell.

(** X1: each process the notebook builds, once started, calls [run_experiment]
    on the project with the two keywords of its own configuration: no
    default of the signature is used, and the call raises no [TypeError]. *)
Theorem built_processes_call_their_configuration (env : Env) (pr : Project) :
  ∃ processes,
    build_processes pr = Some processes ∧
    Forall (λ p, ∃ b n,
              config p = (Some b, Some n) ∧
              call_target env p = Some (run_experiment env pr b n) ∧
              worker env p = run_experiment env pr b n)
           processes.
Proof.
  destruct (build_processes_configs pr) as (ps & Hps & _ & Hargs).
  exists ps. split; [done |]. eapply Forall_impl; [apply Hargs |].
  intros p [Hp Hdom]. cbn beta.
  assert (His : is_Some (kwargs p !! "is_standardized")).
  { apply elem_of_dom. rewrite Hdom. apply elem_of_union_l.
    by apply elem_of_singleton. }
  assert (Hn : is_Some (kwargs p !! "n_components")).
  { apply elem_of_dom. rewrite Hdom. apply elem_of_union_r.
    by apply elem_of_singleton. }
  destruct His as [b Hb], Hn as [n Hn]. exists b, n.
  assert (Hcall : call_target env p = Some (run_experiment env pr b n)).
  { unfold call_target. rewrite Hp, decide_True by (by rewrite Hdom).
    by rewrite Hb, Hn. }
  split; [unfold config; by rewrite Hb, Hn |]. split; [done |].
  unfold worker. by rewrite Hcall.
Qed.

(** X3: for the processes the notebook builds, each of them an object of
    its own that has not been started, and whatever the order of the moves,
    no call of the parent raises: none of the processes is started twice and
    none is joined that was not started; the parent makes the calls of the
    cell in their order, and only the fourteen processes are ever started. *)
Theorem cell_never_raises
    (new_id : gmap nat Experiment → nat) (env : Env) (pr : Project)
    (s0 : gmap nat Experiment) (turns : list turn) :
  ∃ processes,
    build_processes pr = Some processes ∧
    let σ := system_run new_id (boot env processes s0) turns in
    raised σ = false ∧
    (∃ k, todo σ = drop k (start_then_join processes)) ∧
    (∀ i, i ∈ started σ → (i < 14)%nat).
Proof.
  destruct (build_processes_length pr) as (ps & Hps & Hlen).
  exists ps. split; [done |]. cbv zeta.
  destruct (in_step_run new_id ps _ turns (in_step_boot ps env s0))
    as (Hraised & _ & k & Htodo & Hstarted & _).
  split; [done |]. split; [by exists k |].
  intros i Hi. rewrite <- Hlen. by apply Hstarted in Hi as [_ Hi].
Qed.

(** X4: once the parent has made the last call of the cell, every process of
    the list has been started and has come to its end, by returning or by
    an exception: a [join] does not return before its process has exited. *)
Theorem cell_returns_after_all_exited
    (new_id : gmap nat Experiment → nat) (env : Env)
    (processes : list Process) (s0 : gmap nat Experiment) (turns : list turn) :
  let σ := system_run new_id (boot env processes s0) turns in
  todo σ = [] →
  ∀ i, (i < length processes)%nat →
       has_exited σ i = true ∧
       (pool (shared σ) !! i = Some (Ret tt) ∨ pool (shared σ) !! i = Some Raise).
Proof.
  cbv zeta. intros Hnil i Hi.
  pose proof (in_step_run new_id processes _ turns
                (in_step_boot processes env s0)) as Hσ.
  destruct (in_step_done processes _ i Hσ Hnil Hi) as (Hs & q & Hq & Hend).
  split.
  - unfold has_exited. by rewrite bool_decide_eq_true_2, Hq.
  - rewrite Hq. by destruct q as [[] | | |]; [left | right | |].
Qed.

Lemma cell_returns_after_all_exited_sample :
  has_exited (system_run Sample.new_id
                (boot Sample.env SampleRun.processes ∅) SampleRun.turns) 13
  = true ∧
  (pool (shared (system_run Sample.new_id
                   (boot Sample.env SampleRun.processes ∅) SampleRun.turns))
     !! 13%nat = Some (Ret tt) ∨
   pool (shared (system_run Sample.new_id
                   (boot Sample.env SampleRun.processes ∅) SampleRun.turns))
     !! 13%nat = Some Raise).
Proof.
  apply (cell_returns_after_all_exited Sample.new_id Sample.env
           SampleRun.processes ∅ SampleRun.turns).
  - vm_compute. reflexivity.
  - vm_compute. lia.
Defined.

(** X5: when the cell has returned, whatever the order of the moves was: each
    process has logged one experiment that was not there before, has made
    on it exactly the calls of one run of its configuration, in order, and
    the experiment holds what such a run leaves behind (all of it if the
    run's calls outside the client return, and what was logged before the
    exception if one raises); the experiments of two processes differ; the
    store holds the experiments of the start unchanged and these fourteen,
    and no other. *)
Theorem cell_leaves_fourteen_experiments
    (new_id : gmap nat Experiment → nat) (env : Env) (pr : Project)
    (processes : list Process) (s0 : gmap nat Experiment) (turns : list turn) :
  (∀ s, s !! (new_id s) = None) →
  build_processes pr = Some processes →
  todo (system_run new_id (boot env processes s0) turns) = [] →
  let w := shared (system_run new_id (boot env processes s0) turns) in
  (∀ i p, processes !! i = Some p →
     ∃ e b n,
       config p = (Some b, Some n) ∧
       experiment_of i (journal w) = Some e ∧
       s0 !! e = None ∧
       events_of i (journal w) = expected_calls env e pr b n ∧
       store w !! e = Some (logged env pr b n)) ∧
  (∀ i j e, experiment_of i (journal w) = Some e →
            experiment_of j (journal w) = Some e → i = j) ∧
  (∀ e, e ∈ dom (store w) ↔
        e ∈ dom s0 ∨ ∃ i, (i < 14)%nat ∧ experiment_of i (journal w) = Some e) ∧
  size (store w) = (size s0 + 14)%nat ∧
  (∀ e x, s0 !! e = Some x → store w !! e = Some x).
Proof.
  intros Hfresh Hbuild Hnil w.
  destruct (build_processes_configs pr) as (ps & Hps & Hcfg & Hargs).
  rewrite Hbuild in Hps. injection Hps as <-.
  assert (Hlen : length processes = 14%nat)
    by (by rewrite <- (length_fmap config), Hcfg).
  destruct (cell_invariants new_id env pr processes s0 turns Hfresh Hargs)
    as (Hapart & Hscript & Hacc). fold w in Hapart, Hscript, Hacc.
  assert (Hended : ∀ i, (i < length (script_of env <$> processes))%nat →
                        ∃ q, pool w !! i = Some q ∧ ended q = true).
  { intros i Hi. rewrite length_fmap in Hi.
    by apply (in_step_done processes _ i
                (in_step_run new_id processes _ turns
                   (in_step_boot processes env s0))). }
  destruct (ended_store (name pr) s0 _ w Hapart Hscript Hacc Hended)
    as (Hdom & Hinj & Hsize).
  rewrite length_fmap, Hlen in Hdom, Hsize.
  split; [| split; [done |]; split; [done |]; split; [done |];
            apply (apart_keeps _ _ _ Hapart)].
  intros i p Hp.
  destruct (proj1 (Forall_lookup _ _) Hargs i p Hp) as [_ Hkw].
  destruct (kwargs_both p Hkw) as (b & n & Hb & Hn).
  assert (Hs : (script_of env <$> processes) !! i
               = Some ("GaussianNB", script env b n)).
  { rewrite list_lookup_fmap, Hp.
    change (script_of env <$> Some p) with (Some (script_of env p)).
    unfold script_of. by rewrite Hb, Hn. }
  destruct (Hended i (lookup_lt_Some _ _ _ Hs)) as (q & Hq & Hend).
  destruct (ended_worker (name pr) s0 _ w Hapart Hscript i q _ _ Hq Hend Hs)
    as (e & Hmine & He & Hnew & Hheld).
  exists e, b, n. split; [unfold config; by rewrite Hb, Hn |].
  split; [done |]. split; [done |].
  split; [done | by rewrite <- replay_script].
Qed.

Lemma cell_leaves_fourteen_experiments_sample :
  let w := shared (system_run Sample.new_id
                     (boot Sample.env SampleRun.processes ∅) SampleRun.turns) in
  (∀ i p, SampleRun.processes !! i = Some p →
     ∃ e b n,
       config p = (Some b, Some n) ∧
       experiment_of i (journal w) = Some e ∧
       (∅ : gmap nat Experiment) !! e = None ∧
       events_of i (journal w) = expected_calls Sample.env e project b n ∧
       store w !! e = Some (logged Sample.env project b n)) ∧
  (∀ i j e, experiment_of i (journal w) = Some e →
            experiment_of j (journal w) = Some e → i = j) ∧
  (∀ e, e ∈ dom (store w) ↔
        e ∈ dom (∅ : gmap nat Experiment)
        ∨ ∃ i, (i < 14)%nat ∧ experiment_of i (journal w) = Some e) ∧
  size (store w) = (size (∅ : gmap nat Experiment) + 14)%nat ∧
  (∀ e x, (∅ : gmap nat Experiment) !! e = Some x → store w !! e = Some x).
Proof.
  apply (cell_leaves_fourteen_experiments Sample.new_id Sample.env project
           SampleRun.processes ∅ SampleRun.turns).
  - apply sample_new_id_fresh.
  - reflexivity.
  - vm_compute. reflexivity.
Defined.

(** X6: as long as the parent has calls left, somebody can move: the cell does
    not get stuck, be it on a [join] of a process that has yet to end, which
    can then make its next call. *)
Theorem cell_is_never_stuck
    (new_id : gmap nat Experiment → nat) (env : Env)
    (processes : list Process) (s0 : gmap nat Experiment) (turns : list turn) :
  todo (system_run new_id (boot env processes s0) turns) ≠ [] →
  ∃ t, system_step new_id (system_run new_id (boot env processes s0) turns) t
       ≠ system_run new_id (boot env processes s0) turns.
Proof.
  set (σ := system_run new_id (boot env processes s0) turns). intros Hleft.
  pose proof (in_step_run new_id processes _ turns
                (in_step_boot processes env s0)) as Hσ. fold σ in Hσ.
  destruct Hσ as (Hraised & Hlen & k & Htodo & Hstarted & Hended).
  destruct (start_then_join processes !! k) as [c |] eqn:Hk;
    [| by rewrite Htodo, drop_ge in Hleft by (by apply lookup_ge_None)].
  rewrite (drop_S _ _ _ Hk) in Htodo.
  assert (Hshorter : ∀ σ', todo σ' = drop (S k) (start_then_join processes) →
                           σ' ≠ σ).
  { intros σ' Hσ' ->. rewrite Htodo in Hσ'.
    apply (f_equal length) in Hσ'. cbn in Hσ'. lia. }
  destruct c as [j | j].
  - exists Parent. cbn [system_step]. unfold parent_step.
    rewrite Hraised, Htodo.
    apply start_then_join_start in Hk as [-> Hj].
    rewrite bool_decide_eq_false_2 by (rewrite Hstarted; lia).
    by apply Hshorter.
  - apply start_then_join_join in Hk as [-> Hj].
    assert (Hin : j ∈ started σ) by (apply Hstarted; lia).
    destruct (has_exited σ j) eqn:Hex.
    + exists Parent. cbn [system_step]. unfold parent_step.
      rewrite Hraised, Htodo, bool_decide_eq_true_2, Hex by done.
      by apply Hshorter.
    + exists (Child j). cbn [system_step].
      rewrite bool_decide_eq_true_2 by done.
      unfold has_exited in Hex. rewrite bool_decide_eq_true_2 in Hex by done.
      cbn [andb] in Hex. unfold pool_step.
      destruct (pool (shared σ) !! j) as [p |] eqn:Hp;
        [| apply lookup_ge_None in Hp; lia].
      destruct p as [a | | pr m q | e c q]; [done | done | |]; cbn [step];
        intros Heq; apply (f_equal (λ x, length (journal (shared x)))) in Heq;
        cbn in Heq; rewrite length_app in Heq; cbn in Heq; lia.
Qed.

Lemma cell_is_never_stuck_sample :
  ∃ t, system_step Sample.new_id
         (system_run Sample.new_id (boot Sample.env SampleRun.processes ∅)
            [Parent; Parent; Child 0; Child 1; Child 0]) t
       ≠ system_run Sample.new_id (boot Sample.env SampleRun.processes ∅)
           [Parent; Parent; Child 0; Child 1; Child 0].
Proof.
  apply (cell_is_never_stuck Sample.new_id Sample.env SampleRun.processes ∅
           [Parent; Parent; Child 0; Child 1; Child 0]).
  vm_compute. discriminate.
Defined.

(** ** The threshold *)

(** X7: the comparison with [.9] is not strict and is one of floats: an
    accuracy of exactly nine tenths, be it written [.9] or computed as 9/10
    or 81/90, is a success; the largest float below [.9] is a failure, as are
    8/9 and a NaN accuracy. *)
Theorem verdict_at_the_threshold :
  verdict point_nine = "success" ∧
  verdict (PrimFloat.div 9 10) = "success" ∧
  verdict (PrimFloat.div 81 90) = "success" ∧
  verdict 1 = "success" ∧
  verdict (PrimFloat.next_down point_nine) = "failure" ∧
  verdict (PrimFloat.div 8 9) = "failure" ∧
  verdict 0 = "failure" ∧
  verdict nan = "failure".
Proof. repeat split; by vm_compute. Qed.

(** ** [range] with a positive step *)

(** X8: with a positive step, [range(start, stop, step)] holds exactly the
    values from [start] up to but not including [stop] that are a whole
    number of steps away from [start], in increasing order; there are none
    when [stop] is not above [start]. *)
Theorem range_positive_step (start stop step : Z) :
  0 < step →
  ∃ l, Py.range start stop step = Some l ∧
       (∀ x, x ∈ l ↔ start ≤ x < stop ∧ (x - start) mod step = 0) ∧
       (∀ (i j : nat) a b, l !! i = Some a → l !! j = Some b →
                           (i < j)%nat → a < b) ∧
       (stop ≤ start → l = []).
Proof.
  intros Hstep. unfold Py.range.
  destruct (Z.eqb_spec step 0) as [-> | _]; [lia |].
  eexists. split; [done |].
  change (map ?f ?l) with (f <$> l).
  assert (Hlen : ∀ i : nat,
    (i < Py.range_length start stop step)%nat
    ↔ start + Z.of_nat i * step < stop).
  { intros i. unfold Py.range_length.
    destruct (Z.ltb_spec 0 step) as [_ | ?]; [| lia].
    destruct (Z.ltb_spec start stop) as [Hlt | Hge]; [| nia].
    pose proof (Z.mul_div_le (stop - start - 1) step Hstep) as Hlow.
    pose proof (Z.mul_succ_div_gt (stop - start - 1) step Hstep) as Hup.
    pose proof (Z.div_pos (stop - start - 1) step) as Hpos.
    split; intros Hi; nia. }
  split; [| split].
  - intros x. rewrite list_elem_of_fmap. split.
    + intros (i & -> & Hi). apply elem_of_seq in Hi.
      assert (Hi' : (i < Py.range_length start stop step)%nat) by lia.
      apply Hlen in Hi'. split; [nia |].
      replace (start + Z.of_nat i * step - start) with (Z.of_nat i * step) by lia.
      apply Z_mod_mult.
    + intros [[Hlo Hhi] Hmod].
      apply Z.mod_divide in Hmod as [q Hq]; [| lia].
      assert (0 ≤ q) by nia.
      exists (Z.to_nat q). split; [rewrite Z2Nat.id by done; lia |].
      apply elem_of_seq. split; [lia |]. cbn. apply Hlen.
      rewrite Z2Nat.id by done. lia.
  - intros i j a b Hi Hj Hij.
    rewrite list_lookup_fmap in Hi, Hj.
    destruct (seq 0 (Py.range_length start stop step) !! i) as [i' |] eqn:Hi';
      [| done].
    destruct (seq 0 (Py.range_length start stop step) !! j) as [j' |] eqn:Hj';
      [| done].
    apply lookup_seq in Hi' as [-> _]. apply lookup_seq in Hj' as [-> _].
    cbn in Hi, Hj. simplify_eq. nia.
  - intros Hempty. unfold Py.range_length.
    destruct (Z.ltb_spec 0 step) as [_ | ?]; [| lia].
    by destruct (Z.ltb_spec start stop) as [? | _]; [lia |].
Qed.

Lemma range_positive_step_sample :
  ∃ l, Py.range 1 15 2 = Some l ∧
       (∀ x, x ∈ l ↔ 1 ≤ x < 15 ∧ (x - 1) mod 2 = 0) ∧
       (∀ (i j : nat) a b, l !! i = Some a → l !! j = Some b →
                           (i < j)%nat → a < b) ∧
       (15 ≤ 1 → l = []).
Proof. apply (range_positive_step 1 15 2). lia. Defined.


(** ** The cell can always be brought to its end *)

Section Completion.

Context (new_id : gmap nat Experiment → nat).

Lemma pool_run_app (w : world) (s1 s2 : list nat) :
  pool_run new_id w (s1 ++ s2) = pool_run new_id (pool_run new_id w s1) s2.
Proof. apply foldl_app. Qed.

(** Given enough turns in a row, a program comes to its end. *)
Lemma pool_run_to_end (p : prog unit) (w : world) (i : nat) :
  pool w !! i = Some p →
  ∃ m q, pool (pool_run new_id w (replicate m i)) !! i = Some q ∧
         ended q = true.
Proof.
  revert w. induction p as [a | | pr m k IH | e c k IH]; intros w Hi.
  - by exists 0%nat, (Ret a).
  - by exists 0%nat, Raise.
  - pose proof (lookup_lt_Some _ _ _ Hi) as Hlt.
    destruct (IH (new_id (store w)) (pool_step new_id w i)) as (n & q & Hn).
    { unfold pool_step. rewrite Hi. cbn [step pool].
      by apply list_lookup_insert_eq. }
    by exists (S n), q.
  - pose proof (lookup_lt_Some _ _ _ Hi) as Hlt.
    destruct (IH (pool_step new_id w i)) as (n & q & Hn).
    { unfold pool_step. rewrite Hi. cbn [step pool].
      by apply list_lookup_insert_eq. }
    by exists (S n), q.
Qed.

Lemma system_run_app (σ : system) (t1 t2 : list turn) :
  system_run new_id σ (t1 ++ t2)
  = system_run new_id (system_run new_id σ t1) t2.
Proof. apply foldl_app. Qed.

(** The turns of a started process are turns of the pool. *)
Lemma system_run_child (σ : system) (i m : nat) :
  i ∈ started σ →
  system_run new_id σ (replicate m (Child i)) =
    {| todo := todo σ; started := started σ; raised := raised σ;
       shared := pool_run new_id (shared σ) (replicate m i) |}.
Proof.
  revert σ. induction m as [| m IH]; intros σ Hi; [by destruct σ |].
  cbn [replicate]. 
  change (system_run new_id σ (Child i :: replicate m (Child i)))
    with (system_run new_id (system_step new_id σ (Child i))
            (replicate m (Child i))).
  cbn [system_step]. rewrite bool_decide_eq_true_2 by done.
  by rewrite IH.
Qed.

Context (processes : list Process).

Lemma can_complete (n : nat) (σ : system) :
  in_step processes σ → length (todo σ) = n →
  ∃ turns, todo (system_run new_id σ turns) = [].
Proof.
  revert σ. induction n as [| n IH]; intros σ Hσ Hn.
  { exists []. by apply length_zero_iff_nil. }
  pose proof Hσ as (Hraised & Hlen & k & Htodo & Hstarted & Hended).
  destruct (start_then_join processes !! k) as [c |] eqn:Hk;
    [| rewrite Htodo, drop_ge in Hn by (by apply lookup_ge_None); done].
  rewrite (drop_S _ _ _ Hk) in Htodo.
  assert (Hrest : length (drop (S k) (start_then_join processes)) = n).
  { rewrite Htodo in Hn. cbn in Hn. lia. }
  destruct c as [j | j].
  - apply start_then_join_start in Hk as [-> Hj].
    destruct (IH (parent_step σ)) as [turns Hturns].
    + by apply in_step_parent.
    + unfold parent_step. rewrite Hraised, Htodo.
      by rewrite bool_decide_eq_false_2 by (rewrite Hstarted; lia).
    + by exists (Parent :: turns).
  - apply start_then_join_join in Hk as [-> Hj].
    assert (Hin : j ∈ started σ) by (apply Hstarted; lia).
    destruct (pool (shared σ) !! j) as [p |] eqn:Hp;
      [| apply lookup_ge_None in Hp; lia].
    destruct (pool_run_to_end p (shared σ) j Hp) as (m & q & Hm & Hq).
    set (σ' := system_run new_id σ (replicate m (Child j))).
    assert (Hσ' : in_step processes σ') by (by apply in_step_run).
    assert (Heq : σ' = {| todo := todo σ; started := started σ;
                          raised := raised σ;
                          shared := pool_run new_id (shared σ) (replicate m j) |})
      by (by apply system_run_child).
    destruct (IH (parent_step σ')) as [turns Hturns].
    + by apply in_step_parent.
    + unfold parent_step, has_exited. rewrite Heq. cbn [raised todo started shared].
      rewrite Hraised, Htodo, bool_decide_eq_true_2, Hm, Hq by done.
      done.
    + exists (replicate m (Child j) ++ Parent :: turns).
      by rewrite system_run_app.
Qed.

End Completion.

(** X10: for the processes the notebook builds, each of them an object of
    its own that has not been started: wherever the cell has got to, there
    are moves that bring it to its end without a call of the parent
    raising; the parent's calls that are left can all be made, each process
    being given the turns it needs to come to its end before it is joined. *)
Theorem cell_can_always_complete
    (new_id : gmap nat Experiment → nat) (env : Env) (pr : Project)
    (s0 : gmap nat Experiment) (turns : list turn) :
  ∃ processes more,
    build_processes pr = Some processes ∧
    todo (system_run new_id (boot env processes s0) (turns ++ more)) = [] ∧
    raised (system_run new_id (boot env processes s0) (turns ++ more)) = false.
Proof.
  destruct (build_processes_length pr) as (ps & Hps & _).
  pose proof (in_step_run new_id ps _ turns (in_step_boot ps env s0)) as Hσ.
  destruct (can_complete new_id ps _ _ Hσ eq_refl) as [more Hmore].
  exists ps, more. split; [done |]. rewrite system_run_app. split; [done |].
  by destruct (in_step_run new_id ps _ more Hσ) as [Hraised _].
Qed.


(** ** The documentation workflow *)

Import Workflow.

(** C7: an event starts the workflow exactly when it is a [release] event
    of activity type [created] or a [workflow_dispatch] event; these two are
    the only entries under [on:]. *)
Theorem triggered_by_release_created_or_dispatch (ev : Event) :
  dom (on publish_docs) = {[ "release"; "workflow_dispatch" ]} ∧
  (triggered_by publish_docs ev = true
   ↔ (event_name ev = "release" ∧ activity ev = Some "created")
     ∨ event_name ev = "workflow_dispatch").
Proof.
  split; [unfold publish_docs; cbn [on]; by rewrite dom_insert_L, dom_singleton_L |].
  destruct ev as [n a]. unfold triggered_by, publish_docs.
  cbn [on event_name activity].
  destruct (decide (n = "release")) as [-> | Hrel].
  - rewrite lookup_insert_eq. cbn [types].
    destruct a as [a |].
    + rewrite bool_decide_eq_true, list_elem_of_singleton. split.
      * intros ->. by left.
      * intros [[_ Ha] | Hn]; by simplify_eq.
    + split; [done | intros [[_ Ha] | Hn]; by simplify_eq].
  - rewrite lookup_insert_ne by done.
    destruct (decide (n = "workflow_dispatch")) as [-> | Hdis].
    + rewrite lookup_singleton_eq. cbn [types]. split; [by right | done].
    + rewrite lookup_singleton_ne by done.
      split; [done | intros [[Hn _] | Hn]; by simplify_eq].
Qed.

(** C8: in the job, the step named "Build" runs the script [build-docs.sh]
    with bash from inside [docs], and nothing else; the step right after it,
    named "Publish", uses the action JamesIves/github-pages-deploy-action,
    which is neither GitHub's nor the repository's own, with the branch
    [gh-pages] and the folder [docs/build/html] as its inputs. *)
Theorem build_then_publish_to_gh_pages :
  ∃ job build publish,
    jobs publish_docs !! "build-and-deploy" = Some job ∧
    steps job !! 4%nat = Some build ∧
    steps job !! 5%nat = Some publish ∧
    length (steps job) = 6%nat ∧
    step_name build = Some "Build" ∧
    shell build = Some "bash" ∧
    exec_script (default [] (run build)) = [RunsScript "bash" "docs" "build-docs.sh"] ∧
    step_name publish = Some "Publish" ∧
    action_repo (default "" (uses publish)) = "JamesIves/github-pages-deploy-action" ∧
    third_party (default "" (uses publish)) = true ∧
    inputs publish !! "branch" = Some "gh-pages" ∧
    inputs publish !! "folder" = Some "docs/build/html".
Proof.
  eexists _, _, _.
  split; [unfold publish_docs; cbn [jobs]; apply lookup_singleton_eq |].
  cbn [steps lookup list_lookup length step_name shell run uses inputs default].
  repeat (split; [reflexivity |]). reflexivity.
Qed.


(** ** The steps of the job *)

(** X9: the workflow has the one job; each of its steps either uses an action
    or runs a script, never both; the first step checks the repository out
    with its full history; the only action that is neither GitHub's nor the
    repository's own is the one of the last step, "Publish"; and all that
    the scripts of the job run from the repository is [build-docs.sh], from
    inside [docs]. *)
Theorem job_steps_shape :
  dom (jobs publish_docs) = {[ "build-and-deploy" ]} ∧
  ∃ job,
    jobs publish_docs !! "build-and-deploy" = Some job ∧
    runs_on job = "ubuntu-latest" ∧
    Forall (λ st, (is_Some (uses st) ∧ Workflow.run st = None ∧ shell st = None)
                  ∨ (uses st = None ∧ is_Some (Workflow.run st) ∧ inputs st = ∅))
           (steps job) ∧
    (∃ st, head (steps job) = Some st ∧
           uses st = Some "actions/checkout@v2" ∧
           inputs st !! "fetch-depth" = Some "0") ∧
    (∀ i st u, steps job !! i = Some st → uses st = Some u →
               third_party u = true →
               step_name st = Some "Publish" ∧ S i = length (steps job)) ∧
    (st ← steps job; exec_script (default [] (Workflow.run st))) =
      [ Other "echo $CONDA/bin >> $GITHUB_PATH";
        Other "conda env update --file docs/docs-environment.yml --name base";
        RunsScript "bash" "docs" "build-docs.sh" ].
Proof.
  split; [unfold publish_docs; cbn [jobs]; by rewrite dom_singleton_L |].
  eexists. split; [unfold publish_docs; cbn [jobs]; apply lookup_singleton_eq |].
  cbn [steps runs_on]. split; [done |]. split.
  { repeat apply Forall_cons_2; [.. | apply Forall_nil_2];
      cbn [uses Workflow.run shell inputs];
      (by left; repeat split; eauto) || (by right; repeat split; eauto). }
  split.
  { eexists. split; [reflexivity |]. split; [reflexivity |].
    cbn [inputs]. apply lookup_singleton_eq. }
  split; [| by vm_compute].
  intros i st u Hst Hu Hthird.
  do 6 (destruct i as [| i]; [cbn in Hst; simplify_eq; cbn in Hu; simplify_eq;
                               try (by vm_compute in Hthird); by split |]).
  by cbn in Hst.
Qed.

